(** * Todo chatbot: the rule-based agent, the chat handler and the task store

  A shallow embedding of [backend_main.py] (the keyword agent [run_agent]
  and the [chat] handler) and of [mcp_tools_full.py] (the [TaskManager]
  operations over the [task] table), followed by the properties of the
  specification that concern them. *)

From Stdlib Require Import ZArith List String Ascii Bool Lia Sorted.
From Stdlib Require Import Permutation.
From Stdlib Require Import Numbers.DecimalString.
Import ListNotations.

Set Warnings "-register-all".

Local Open Scope string_scope.
Local Open Scope Z_scope.

(* ================================================================== *)
(** ** Python values and string methods *)
(* ================================================================== *)

Module Py.

(** Python strings are modelled as [string], holding the UTF-8 bytes of
    the text.  [lower] acts on the ASCII letters; the keywords and
    literals of the program are ASCII.  Outside ASCII, [str.lower]
    yields an ASCII letter for two characters only: U+212A, which gives
    "k", a letter of no keyword, and U+0130, which gives an "i" with a
    combining dot after it, while "i" is followed by "s" in the one
    keyword that has it.  So the keyword tests below are those of the
    program. *)

(** The values that appear in the [dict]s of the program (tool-call
    arguments, response payloads).  A [dict] is an association list in
    insertion order; [VTime t] stands for the ISO-8601 text of the
    instant [t]. *)
Inductive Value : Type :=
| VNone
| VBool (b : bool)
| VInt (z : Z)
| VStr (s : string)
| VTime (t : Z)
| VList (l : list Value)
| VDict (d : list (string * Value)).

Definition Dict : Type := list (string * Value).

(** [d.get(key, default)] *)
Fixpoint dict_get (d : Dict) (key : string) (default : Value) : Value :=
  match d with
  | [] => default
  | (k, v) :: d' => if String.eqb k key then v else dict_get d' key default
  end.

(** [str(n)] for an [int]. *)
Definition str_of_int (n : Z) : string := NilZero.string_of_int (Z.to_int n).

Definition is_upper (c : ascii) : bool :=
  let n := nat_of_ascii c in (Nat.leb 65 n && Nat.leb n 90)%bool.

Definition lower_char (c : ascii) : ascii :=
  if is_upper c then ascii_of_nat (nat_of_ascii c + 32) else c.

(** [s.lower()] *)
Fixpoint lower (s : string) : string :=
  match s with
  | EmptyString => EmptyString
  | String c s' => String (lower_char c) (lower s')
  end.

(** [sub in s] *)
Fixpoint contains (sub s : string) : bool :=
  (String.prefix sub s ||
   match s with
   | EmptyString => false
   | String _ s' => contains sub s'
   end)%bool.

(** The scan of [s.replace(old, new)] for a non-empty [old]: occurrences
    are found left to right and do not overlap; [skip] counts the
    characters of the occurrence just found that are still to be
    dropped. *)
Fixpoint replace_scan (old new : string) (skip : nat) (s : string) : string :=
  match s with
  | EmptyString => EmptyString
  | String c s' =>
      match skip with
      | S k => replace_scan old new k s'
      | O =>
          if String.prefix old s
          then new ++ replace_scan old new (Nat.pred (String.length old)) s'
          else String c (replace_scan old new O s')
      end
  end.

(** With an empty [old], Python puts [new] before every character and
    at the end. *)
Fixpoint replace_empty (new s : string) : string :=
  match s with
  | EmptyString => new
  | String c s' => new ++ String c (replace_empty new s')
  end.

(** [s.replace(old, new)] *)
Definition replace (s old new : string) : string :=
  match old with
  | EmptyString => replace_empty new s
  | String _ _ => replace_scan old new O s
  end.

(** Strings are read as UTF-8.  The characters [str.strip()] removes
    are, by code point, 9 to 13, 28 to 32, U+0085, U+00A0, U+1680,
    U+2000 to U+200A, U+2028, U+2029, U+202F, U+205F and U+3000.
    [is_space] tests the ones of one byte: tab, line feed, vertical
    tab, form feed, carriage return, the separators 28 to 31 and the
    space. *)
Definition is_space (c : ascii) : bool :=
  let n := nat_of_ascii c in
  ((Nat.leb 9 n && Nat.leb n 13) || (Nat.leb 28 n && Nat.leb n 32))%bool.

(** The ones of two bytes: U+0085 (C2 85) and U+00A0 (C2 A0). *)
Definition is_space2 (c1 c2 : ascii) : bool :=
  let n1 := nat_of_ascii c1 in
  let n2 := nat_of_ascii c2 in
  (Nat.eqb n1 194 && (Nat.eqb n2 133 || Nat.eqb n2 160))%bool.

(** The ones of three bytes: U+1680 (E1 9A 80), U+2000 to U+200A
    (E2 80 80 to E2 80 8A), U+2028 and U+2029 (E2 80 A8, E2 80 A9),
    U+202F (E2 80 AF), U+205F (E2 81 9F) and U+3000 (E3 80 80). *)
Definition is_space3 (c1 c2 c3 : ascii) : bool :=
  let n1 := nat_of_ascii c1 in
  let n2 := nat_of_ascii c2 in
  let n3 := nat_of_ascii c3 in
  ((Nat.eqb n1 225 && Nat.eqb n2 154 && Nat.eqb n3 128)
   || (Nat.eqb n1 226 && Nat.eqb n2 128
       && ((Nat.leb 128 n3 && Nat.leb n3 138)
           || Nat.eqb n3 168 || Nat.eqb n3 169 || Nat.eqb n3 175))
   || (Nat.eqb n1 226 && Nat.eqb n2 129 && Nat.eqb n3 159)
   || (Nat.eqb n1 227 && Nat.eqb n2 128 && Nat.eqb n3 128))%bool.

Definition is_empty (s : string) : bool :=
  match s with EmptyString => true | String _ _ => false end.

(** [s.lstrip()] *)
Fixpoint lstrip (s : string) : string :=
  match s with
  | EmptyString => EmptyString
  | String c1 s1 =>
      if is_space c1 then lstrip s1
      else
        match s1 with
        | EmptyString => s
        | String c2 s2 =>
            if is_space2 c1 c2 then lstrip s2
            else
              match s2 with
              | EmptyString => s
              | String c3 s3 => if is_space3 c1 c2 c3 then lstrip s3 else s
              end
        end
  end.

(** [s.rstrip()]: the string is cut where what follows is whitespace
    to the end. *)
Fixpoint rstrip (s : string) : string :=
  match s with
  | EmptyString => EmptyString
  | String c s' =>
      if is_empty (lstrip s) then EmptyString else String c (rstrip s')
  end.

(** [s.strip()] *)
Definition strip (s : string) : string := rstrip (lstrip s).

(** A bound on the bytes of the whitespace characters: none is NUL and
    none lies between "A" and "z". *)
Definition blank_byte (c : ascii) : Prop :=
  (0 < nat_of_ascii c /\ (nat_of_ascii c < 65 \/ 122 < nat_of_ascii c))%nat.

(** [chr(0) in s] *)
Fixpoint has_nul (s : string) : bool :=
  match s with
  | EmptyString => false
  | String c s' => (Nat.eqb (nat_of_ascii c) 0 || has_nul s')%bool
  end.

End Py.

(* ================================================================== *)
(** ** backend_main.py *)
(* ================================================================== *)

Module BackendMain.
Import Py.

(** [class ToolCall(BaseModel)] *)
Record ToolCall : Type := mkToolCall { name : string; arguments : Dict }.

(** [run_agent(user_id, conversation, message)]: the [if]/[elif] chain
    over the lower-cased message.  The keywords are looked up in
    [user_message], the task text is cut out of [message] itself. *)
Definition run_agent (user_id : string) (conversation : list Dict)
           (message : string) : string * list ToolCall :=
  let user_message := lower message in
  if (contains "add" user_message || contains "create" user_message)%bool then
    let task_desc :=
      strip (replace (replace (replace message "add" "") "create" "") "task" "") in
    let task_desc := if is_empty task_desc then "a new task" else task_desc in
    let tool_calls :=
      [mkToolCall "add_task"
         [("user_id", VStr user_id); ("description", VStr task_desc)]] in
    let response := "I've added the task '" ++ task_desc ++ "' to your list." in
    (response, tool_calls)
  else if (contains "list" user_message || contains "show" user_message)%bool then
    let tool_calls := [mkToolCall "list_tasks" [("user_id", VStr user_id)]] in
    let response := "Here are your tasks for user " ++ user_id ++ "." in
    (response, tool_calls)
  else if (contains "complete" user_message || contains "done" user_message)%bool then
    let tool_calls :=
      [mkToolCall "complete_task"
         [("user_id", VStr user_id); ("task_id", VInt 1)]] in
    let response := "I've marked the task as completed." in
    (response, tool_calls)
  else if (contains "update" user_message || contains "change" user_message)%bool then
    let tool_calls :=
      [mkToolCall "update_task"
         [("user_id", VStr user_id); ("task_id", VInt 1); ("updates", VDict [])]] in
    let response := "I've updated the task as requested." in
    (response, tool_calls)
  else if (contains "delete" user_message || contains "remove" user_message)%bool then
    let tool_calls :=
      [mkToolCall "delete_task"
         [("user_id", VStr user_id); ("task_id", VInt 1)]] in
    let response := "I've deleted the task." in
    (response, tool_calls)
  else
    let tool_calls := [] in
    let response :=
      "I received your message: '" ++ message
        ++ "'. How can I help you with your tasks?" in
    (response, tool_calls).

(** *** The [message] table and the session *)

(** [class Message(SQLModel, table=True)] *)
Record Message : Type := mkMessage {
  id : Z;
  conversation_id : string;
  user_id : string;
  role : string;
  content : string;
  timestamp : Z
}.

(** The committed rows of the [message] table, oldest first. *)
Definition Session : Type := list Message.

(** The primary key the table gives to an inserted row; rows of this
    table are never deleted. *)
Definition next_message_id (rows : Session) : Z :=
  1 + fold_right (fun m acc => Z.max (id m) acc) 0 rows.

(** [session.add(m); session.commit()] for a row built without an id. *)
Definition add_commit (rows : Session)
           (conversation_id user_id role content : string) (timestamp : Z)
  : Session :=
  (rows ++ [mkMessage (next_message_id rows) conversation_id user_id role
                      content timestamp])%list.

Fixpoint insert_by_timestamp (m : Message) (sorted : list Message)
  : list Message :=
  match sorted with
  | [] => [m]
  | m' :: rest =>
      if timestamp m <? timestamp m'
      then m :: sorted
      else m' :: insert_by_timestamp m rest
  end.

(** [select(Message).where(Message.user_id == user_id)
      .order_by(Message.timestamp)] *)
Definition select_history (rows : Session) (uid : string) : list Message :=
  fold_left (fun sorted m => insert_by_timestamp m sorted)
            (filter (fun m => String.eqb (user_id m) uid) rows) [].

(** *** The tool functions *)

(** What awaiting a function yields: its value, or an exception [e]
    with [str(e)]. *)
Inductive Exc (A : Type) : Type :=
| Return (a : A)
| Raise (e : string).
Arguments Return {A} a.
Arguments Raise {A} e.

(** The five module-level tool functions [chat] awaits.  [chat] is
    written against their signatures only, so the handler is stated
    over any such five functions and instantiated below with the ones
    of the module. *)
Record Tools : Type := mkTools {
  add_task : Value -> Value -> Exc Value;
  list_tasks : Value -> Exc Value;
  update_task : Value -> Value -> Value -> Exc Value;
  delete_task : Value -> Value -> Exc Value;
  complete_task : Value -> Value -> Exc Value
}.


(** One awaited tool function: its name and the arguments passed. *)
Definition Invocation : Type := (string * list Value)%type.

(** The body of the loop [for tool_call in tool_calls]: the branch
    taken, if any, with what the awaited function yields. *)
Definition execute_tool (tools : Tools) (tool_call : ToolCall)
  : option (Invocation * Exc Value) :=
  let args := arguments tool_call in
  if String.eqb (name tool_call) "add_task" then
    let a1 := dict_get args "user_id" VNone in
    let a2 := dict_get args "description" (VStr "") in
    Some (("add_task", [a1; a2]), add_task tools a1 a2)
  else if String.eqb (name tool_call) "list_tasks" then
    let a1 := dict_get args "user_id" VNone in
    Some (("list_tasks", [a1]), list_tasks tools a1)
  else if String.eqb (name tool_call) "update_task" then
    let a1 := dict_get args "user_id" VNone in
    let a2 := dict_get args "task_id" (VInt 1) in
    let a3 := dict_get args "updates" (VDict []) in
    Some (("update_task", [a1; a2; a3]), update_task tools a1 a2 a3)
  else if String.eqb (name tool_call) "delete_task" then
    let a1 := dict_get args "user_id" VNone in
    let a2 := dict_get args "task_id" (VInt 1) in
    Some (("delete_task", [a1; a2]), delete_task tools a1 a2)
  else if String.eqb (name tool_call) "complete_task" then
    let a1 := dict_get args "user_id" VNone in
    let a2 := dict_get args "task_id" (VInt 1) in
    Some (("complete_task", [a1; a2]), complete_task tools a1 a2)
  else None.

(** The whole loop: the tool functions awaited, in order, each with
    what it yielded, and whether the loop ran to its end or an awaited
    function raised. *)
Fixpoint execute_tools (tools : Tools) (tool_calls : list ToolCall)
  : list (Invocation * Exc Value) * Exc unit :=
  match tool_calls with
  | [] => ([], Return tt)
  | tool_call :: rest =>
      match execute_tool tools tool_call with
      | None => execute_tools tools rest
      | Some (inv, Raise e) => ([(inv, Raise e)], Raise e)
      | Some (inv, Return v) =>
          let (done, r) := execute_tools tools rest in
          ((inv, Return v) :: done, r)
      end
  end.

(** *** The chat handler *)

(** [class ChatResponse(BaseModel)] *)
Record ChatResponse : Type := mkChatResponse {
  resp_conversation_id : string;
  response : string;
  tool_calls : list ToolCall
}.

(** How a call of [chat] ends. *)
Inductive Outcome : Type :=
| Replied (r : ChatResponse)
| HTTPException (status_code : Z) (detail : string).

(** The calls of [chat] on its session that reach the database: the
    query for the history, the commit of the user turn, its refresh,
    and the commit of the assistant turn. *)
Inductive SessionCall : Type :=
| ExecHistory | CommitUser | RefreshUser | CommitAssistant.

(** What one call of [chat] gets from its environment: the value of
    [uuid.uuid4()], the clock at the two [Message(...)] constructions,
    and, for each call on the session, the exception the database
    answers it with, if any. *)
Record Env : Type := mkEnv {
  uuid4 : string;
  utcnow_user : Z;
  utcnow_assistant : Z;
  raises : SessionCall -> option string
}.

(** One run of [chat]: the [message] table afterwards, the tool
    functions awaited with what each yielded, and how the call
    ended. *)
Record Run : Type := mkRun {
  session_after : Session;
  awaited : list (Invocation * Exc Value);
  outcome : Outcome
}.

(** The tool functions awaited, by name and arguments. *)
Definition invoked (run : Run) : list Invocation := map fst (awaited run).

(** The [except] clause of [chat]. *)
Definition error_processing_chat (session : Session)
           (done : list (Invocation * Exc Value)) (e : string) : Run :=
  mkRun session done (HTTPException 500 ("Error processing chat: " ++ e)).

(** [chat(user_id, request, session)] over the tool functions [tools].
    A commit that raises leaves the table as it was. *)
Definition chat_with (tools : Tools) (env : Env) (session : Session)
           (uid : string) (request_message : string) : Run :=
  let conversation_id := uuid4 env in
  match raises env ExecHistory with
  | Some e => error_processing_chat session [] e
  | None =>
  let results := select_history session uid in
  let conversation :=
    map (fun msg => [("role", VStr (role msg)); ("content", VStr (content msg))])
        results in
  match raises env CommitUser with
  | Some e => error_processing_chat session [] e
  | None =>
  let session :=
    add_commit session conversation_id uid "user" request_message
               (utcnow_user env) in
  match raises env RefreshUser with
  | Some e => error_processing_chat session [] e
  | None =>
  let (response_text, tool_calls) := run_agent uid conversation request_message in
  match raises env CommitAssistant with
  | Some e => error_processing_chat session [] e
  | None =>
  let session :=
    add_commit session conversation_id uid "assistant" response_text
               (utcnow_assistant env) in
  match execute_tools tools tool_calls with
  | (done, Return _) =>
      mkRun session done
            (Replied (mkChatResponse conversation_id response_text tool_calls))
  | (done, Raise e) => error_processing_chat session done e
  end
  end end end end.


(** The first call on the session that raises, in the order [chat]
    makes them, with the exception raised. *)
Definition first_raised (env : Env) : option (SessionCall * string) :=
  match raises env ExecHistory with
  | Some e => Some (ExecHistory, e)
  | None =>
      match raises env CommitUser with
      | Some e => Some (CommitUser, e)
      | None =>
          match raises env RefreshUser with
          | Some e => Some (RefreshUser, e)
          | None =>
              match raises env CommitAssistant with
              | Some e => Some (CommitAssistant, e)
              | None => None
              end
          end
      end
  end.

(** *** The intent behind a message *)

Inductive Intent : Type :=
| AddTask | ListTasks | CompleteTask | UpdateTask | DeleteTask | Unknown.

(** The branch of the [if]/[elif] chain of [run_agent] a message
    takes. *)
Definition intent_of (message : string) : Intent :=
  let user_message := lower message in
  if (contains "add" user_message || contains "create" user_message)%bool
  then AddTask
  else if (contains "list" user_message || contains "show" user_message)%bool
  then ListTasks
  else if (contains "complete" user_message || contains "done" user_message)%bool
  then CompleteTask
  else if (contains "update" user_message || contains "change" user_message)%bool
  then UpdateTask
  else if (contains "delete" user_message || contains "remove" user_message)%bool
  then DeleteTask
  else Unknown.

End BackendMain.

(* ================================================================== *)
(** ** The description in the words of the specification *)
(* ================================================================== *)

Module SpecWords.
Import Py.

(** Section 4.2, rule 1, as the specification words it, kept apart
    from [run_agent] to be compared with it: the message with the
    literal substrings "add", "create" and "task" stripped
    case-insensitively, surrounding whitespace trimmed, and the
    placeholder "a new task" when nothing is left. *)

(** One left-to-right pass that drops the occurrences of [old],
    whatever the case of their letters. *)
Fixpoint strip_literal_scan (old : string) (skip : nat) (s : string) : string :=
  match s with
  | EmptyString => EmptyString
  | String c s' =>
      match skip with
      | S k => strip_literal_scan old k s'
      | O =>
          if String.prefix (lower old) (lower s)
          then strip_literal_scan old (Nat.pred (String.length old)) s'
          else String c (strip_literal_scan old O s')
      end
  end.

Definition strip_literal (s old : string) : string :=
  match old with
  | EmptyString => s
  | String _ _ => strip_literal_scan old O s
  end.

Definition spec_description (message : string) : string :=
  let cut :=
    strip (strip_literal (strip_literal (strip_literal message "add") "create")
                         "task") in
  if is_empty cut then "a new task" else cut.

End SpecWords.

(* ================================================================== *)
(** ** mcp_tools_full.py *)
(* ================================================================== *)

Module McpTools.
Import Py.

(** [class Task(SQLModel, table=True)] *)
Record Task : Type := mkTask {
  id : Z;
  user_id : string;
  title : string;
  description : option string;
  completed : bool;
  created_at : Z;
  updated_at : Z
}.

(** The two engines [TaskManager.__init__] connects to: the one named
    by [DATABASE_URL], PostgreSQL in the module's words, and SQLite,
    which is both the default URL and the fallback. *)
Inductive Backend : Type := PostgreSQL | SQLite.

(** The database behind a [TaskManager]: the rows of the [task] table,
    the last value of the table's id sequence, and [fault], which holds
    the error text every session operation raises while the store is
    unreachable.  The table is a collection of rows: the list keeps
    them in some order, which stands for no order of the engine, and
    the properties of listings below are stated up to permutation. *)
Record Database : Type := mkDatabase {
  backend : Backend;
  fault : option string;
  serial : Z;
  rows : list Task
}.

Definition empty_database (b : Backend) : Database :=
  mkDatabase b None 0 [].

Definition max_id (rows : list Task) : Z :=
  fold_right (fun t acc => Z.max (id t) acc) 0 rows.

(** The primary key given to a row inserted with [id=None].  [Task.id]
    is declared [Field(default=None, primary_key=True)], so the engine
    chooses it: PostgreSQL takes the next value of the column's
    sequence; SQLite, whose column is a plain [INTEGER PRIMARY KEY],
    takes one more than the largest id in the table. *)
Definition next_id (db : Database) : Z :=
  match backend db with
  | PostgreSQL => serial db + 1
  | SQLite => max_id (rows db) + 1
  end.

(** The row with the primary key [task_id], if the table has one. *)
Definition get (db : Database) (task_id : Z) : option Task :=
  find (fun t => id t =? task_id) (rows db).

(** The integers SQLite can take as a parameter: the signed ones of 64
    bits. *)
Definition int64 (n : Z) : bool := ((- 2 ^ 63 <=? n) && (n <? 2 ^ 63))%bool.

(** What [session.get] comes back with. *)
Inductive Lookup : Type :=
| Found (task : Task)
| Missing
| Overflow (e : string).

(** [session.get(Task, task_id)].  The sqlite3 driver raises
    [OverflowError] for an integer outside 64 bits; psycopg2 sends any
    integer as a literal.  No row of an SQLite table has such an id, so
    the overflow is met only where no row is found. *)
Definition session_get (db : Database) (task_id : Z) : Lookup :=
  match get db task_id with
  | Some task => Found task
  | None =>
      match backend db with
      | PostgreSQL => Missing
      | SQLite =>
          if int64 task_id then Missing
          else Overflow "Python int too large to convert to SQLite INTEGER"
      end
  end.

(** What the driver raises, if anything, when the [str] [s] is sent as
    a parameter: psycopg2 refuses a string that holds a NUL character,
    sqlite3 takes every string. *)
Definition bind (db : Database) (s : string) : option string :=
  match backend db with
  | PostgreSQL =>
      if has_nul s
      then Some "A string literal cannot contain NUL (0x00) characters."
      else None
  | SQLite => None
  end.

(** The same for the strings of a statement, the first refusal being
    the one raised; [None] among them is an SQL NULL. *)
Fixpoint bind_all (db : Database) (params : list (option string))
  : option string :=
  match params with
  | [] => None
  | None :: rest => bind_all db rest
  | Some s :: rest =>
      match bind db s with
      | Some e => Some e
      | None => bind_all db rest
      end
  end.

(** [session.add(task); session.commit()] for a new row. *)
Definition insert (db : Database) (task : Task) : Database :=
  mkDatabase (backend db) (fault db)
             (match backend db with
              | PostgreSQL => serial db + 1
              | SQLite => serial db
              end)
             (rows db ++ [task])%list.

(** [session.add(task); session.commit()] for a row read with
    [session.get]: the row with the key of [task] is rewritten.  Where
    the engine then keeps it among the others is not modelled. *)
Definition merge (db : Database) (task : Task) : Database :=
  mkDatabase (backend db) (fault db) (serial db)
             (map (fun t => if id t =? id task then task else t) (rows db)).

(** [session.delete(task); session.commit()] *)
Definition delete (db : Database) (task : Task) : Database :=
  mkDatabase (backend db) (fault db) (serial db)
             (filter (fun t => negb (id t =? id task)) (rows db)).

(** The response models; the five classes have the same three
    fields. *)
Record Response : Type := mkResponse {
  success : bool;
  data : option Dict;
  error : option string
}.

Definition succeeded (d : Dict) : Response := mkResponse true (Some d) None.
Definition failed (e : string) : Response := mkResponse false None (Some e).

Definition opt_str (o : option string) : Value :=
  match o with Some s => VStr s | None => VNone end.

(** [TaskManager.add_task]; [created] and [updated] are the two
    readings of the clock made by the field defaults of [Task].  The
    commit sends the three strings of the row. *)
Definition add_task (db : Database) (created updated : Z)
           (uid title : string) (descr : option string)
  : Database * Response :=
  match fault db with
  | Some e => (db, failed e)
  | None =>
      let task := mkTask (next_id db) uid title descr false created updated in
      match bind_all db [Some uid; Some title; descr] with
      | Some e => (db, failed e)
      | None =>
          let db := insert db task in
          (db, succeeded [("task_id", VInt (id task));
                          ("user_id", VStr uid);
                          ("title", VStr title);
                          ("description", opt_str descr);
                          ("completed", VBool false);
                          ("created_at", VTime (created_at task))])
      end
  end.

Definition task_entry (task : Task) : Value :=
  VDict [("task_id", VInt (id task));
         ("user_id", VStr (user_id task));
         ("title", VStr (title task));
         ("description", opt_str (description task));
         ("completed", VBool (completed task));
         ("created_at", VTime (created_at task));
         ("updated_at", VTime (updated_at task))].

(** The rows the query of [list_tasks] selects.  The query has no
    [ORDER BY]: the order of the list is not part of what the engine
    promises, and is not the same on every engine after a row is
    rewritten. *)
Definition select_tasks (db : Database) (uid status : string) : list Task :=
  let query := filter (fun t => String.eqb (user_id t) uid) (rows db) in
  if String.eqb status "pending" then
    filter (fun t => Bool.eqb (completed t) false) query
  else if String.eqb status "completed" then
    filter (fun t => Bool.eqb (completed t) true) query
  else query.

(** [TaskManager.list_tasks]; the query sends [user_id]. *)
Definition list_tasks (db : Database) (uid status : string)
  : Database * Response :=
  match fault db with
  | Some e => (db, failed e)
  | None =>
      match bind db uid with
      | Some e => (db, failed e)
      | None =>
          let tasks := select_tasks db uid status in
          let task_list := map task_entry tasks in
          (db, succeeded [("tasks", VList task_list);
                          ("total_count", VInt (Z.of_nat (List.length task_list)));
                          ("user_id", VStr uid);
                          ("status_filter", VStr status)])
      end
  end.

Definition not_found (task_id : Z) : Response :=
  failed ("Task with ID " ++ str_of_int task_id ++ " not found").

Definition unauthorized : Response :=
  failed "Unauthorized: Task does not belong to user".


(** [TaskManager.complete_task] *)
Definition complete_task (db : Database) (now : Z) (uid : string) (task_id : Z)
  : Database * Response :=
  match fault db with
  | Some e => (db, failed e)
  | None =>
      match session_get db task_id with
      | Overflow e => (db, failed e)
      | Missing => (db, not_found task_id)
      | Found task =>
          if negb (String.eqb (user_id task) uid) then (db, unauthorized)
          else
            let task := mkTask (id task) (user_id task) (title task)
                               (description task) true (created_at task) now in
            let db := merge db task in
            (db, succeeded [("task_id", VInt (id task));
                            ("user_id", VStr uid);
                            ("title", VStr (title task));
                            ("completed", VBool (completed task));
                            ("updated_at", VTime (updated_at task))])
      end
  end.

(** [TaskManager.delete_task] *)
Definition delete_task (db : Database) (uid : string) (task_id : Z)
  : Database * Response :=
  match fault db with
  | Some e => (db, failed e)
  | None =>
      match session_get db task_id with
      | Overflow e => (db, failed e)
      | Missing => (db, not_found task_id)
      | Found task =>
          if negb (String.eqb (user_id task) uid) then (db, unauthorized)
          else
            let db := delete db task in
            (db, succeeded [("task_id", VInt task_id);
                            ("user_id", VStr uid);
                            ("deleted", VBool true)])
      end
  end.

(** [TaskManager.update_task]; [None] is an argument left at its
    default.  The commit sends the strings supplied. *)
Definition update_task (db : Database) (now : Z) (uid : string) (task_id : Z)
           (new_title new_description : option string)
  : Database * Response :=
  match fault db with
  | Some e => (db, failed e)
  | None =>
      match session_get db task_id with
      | Overflow e => (db, failed e)
      | Missing => (db, not_found task_id)
      | Found task =>
          if negb (String.eqb (user_id task) uid) then (db, unauthorized)
          else
            let task :=
              match new_title with
              | Some t => mkTask (id task) (user_id task) t (description task)
                                 (completed task) (created_at task)
                                 (updated_at task)
              | None => task
              end in
            let task :=
              match new_description with
              | Some d => mkTask (id task) (user_id task) (title task) (Some d)
                                 (completed task) (created_at task)
                                 (updated_at task)
              | None => task
              end in
            let task := mkTask (id task) (user_id task) (title task)
                               (description task) (completed task)
                               (created_at task) now in
            match bind_all db [new_title; new_description] with
            | Some e => (db, failed e)
            | None =>
                let db := merge db task in
                (db, succeeded [("task_id", VInt (id task));
                                ("user_id", VStr uid);
                                ("title", VStr (title task));
                                ("description", opt_str (description task));
                                ("completed", VBool (completed task));
                                ("updated_at", VTime (updated_at task))])
            end
      end
  end.

(** *** Sequences of calls *)

(** One call of a [TaskManager] method with its arguments and the
    clock readings it makes. *)
Inductive Call : Type :=
| CallAdd (created updated : Z) (uid title : string) (descr : option string)
| CallList (uid status : string)
| CallComplete (now : Z) (uid : string) (task_id : Z)
| CallDelete (uid : string) (task_id : Z)
| CallUpdate (now : Z) (uid : string) (task_id : Z)
             (new_title new_description : option string).

Definition call (db : Database) (c : Call) : Database * Response :=
  match c with
  | CallAdd created updated uid title descr =>
      add_task db created updated uid title descr
  | CallList uid status => list_tasks db uid status
  | CallComplete now uid task_id => complete_task db now uid task_id
  | CallDelete uid task_id => delete_task db uid task_id
  | CallUpdate now uid task_id t d => update_task db now uid task_id t d
  end.

(** The calls of [cs] made one after the other: the database at the
    end and the responses in order. *)
Fixpoint calls (db : Database) (cs : list Call) : Database * list Response :=
  match cs with
  | [] => (db, [])
  | c :: cs' =>
      let (db1, r) := call db c in
      let (db2, rs) := calls db1 cs' in
      (db2, r :: rs)
  end.

Definition is_add (c : Call) : bool :=
  match c with CallAdd _ _ _ _ _ => true | _ => false end.

(** The id a successful [add_task] reports. *)
Definition added_id (c : Call) (r : Response) : option Z :=
  match c, data r with
  | CallAdd _ _ _ _ _, Some d =>
      match dict_get d "task_id" VNone with
      | VInt n => Some n
      | _ => None
      end
  | _, _ => None
  end.

(** The ids given out by the [add_task] calls of [cs], in order. *)
Fixpoint issued (db : Database) (cs : list Call) : list Z :=
  match cs with
  | [] => []
  | c :: cs' =>
      let (db1, r) := call db c in
      match added_id c r with
      | Some n => n :: issued db1 cs'
      | None => issued db1 cs'
      end
  end.

(** The ids in the payload of a [list_tasks] response. *)
Definition listed_ids (r : Response) : list Z :=
  match data r with
  | Some d =>
      match dict_get d "tasks" VNone with
      | VList l =>
          flat_map (fun v => match v with
                             | VDict e =>
                                 match dict_get e "task_id" VNone with
                                 | VInt n => [n]
                                 | _ => []
                                 end
                             | _ => []
                             end) l
      | _ => []
      end
  | None => []
  end.

(** The invariant of a database reached through the operations: the
    primary key is unique, and a sequence is never behind the ids it
    has given out. *)
Definition consistent (db : Database) : Prop :=
  NoDup (map id (rows db)) /\
  (backend db = PostgreSQL -> Forall (fun t => id t <= serial db) (rows db)).

End McpTools.

(* ================================================================== *)
(** ** Requests served one after the other *)
(* ================================================================== *)

Module Server.
Import Py BackendMain.

(** One [POST /api/{user_id}/chat]: the path parameter, the body
    [ChatRequest(message)] and what the call reads from its
    environment. *)
Record Request : Type := mkRequest {
  env : Env;
  caller : string;
  message : string
}.

(** The application serving [requests] in order.  Every call of [chat]
    gets a session on the same engine, so it starts from the rows the
    calls before it committed. *)
Fixpoint serve (tools : Tools) (session : Session) (requests : list Request)
  : Session * list Run :=
  match requests with
  | [] => (session, [])
  | rq :: rest =>
      let run := chat_with tools (env rq) session (caller rq) (message rq) in
      let (session', runs) := serve tools (session_after run) rest in
      (session', run :: runs)
  end.

(** The order of [order_by(Message.timestamp)]. *)
Definition earlier (a b : Message) : Prop := timestamp a <= timestamp b.

End Server.

(* ================================================================== *)
(** ** Calls of the task manager, by caller and target *)
(* ================================================================== *)

Module Calls.
Import Py McpTools.

(** The [user_id] argument of a call. *)
Definition caller_of (c : Call) : string :=
  match c with
  | CallAdd _ _ uid _ _ => uid
  | CallList uid _ => uid
  | CallComplete _ uid _ => uid
  | CallDelete uid _ => uid
  | CallUpdate _ uid _ _ _ => uid
  end.

(** The [task_id] argument of a call; 0 for the calls without one. *)
Definition id_of (c : Call) : Z :=
  match c with
  | CallComplete _ _ task_id => task_id
  | CallDelete _ task_id => task_id
  | CallUpdate _ _ task_id _ _ => task_id
  | CallAdd _ _ _ _ _ => 0
  | CallList _ _ => 0
  end.

(** Whether a call is [delete_task] on the id [k]. *)
Definition deletes (k : Z) (c : Call) : bool :=
  match c with
  | CallDelete _ task_id => task_id =? k
  | _ => false
  end.

End Calls.

(* ================================================================== *)
(** ** Properties of the string methods *)
(* ================================================================== *)

Module PyFacts.
Import Py.

(** The methods on a few inputs. *)

Example lower_mixed : lower "Add A Task, 2nd!" = "add a task, 2nd!".
Proof. reflexivity. Qed.

Example contains_inside_word : contains "add" "my address" = true.
Proof. reflexivity. Qed.

Example contains_is_case_sensitive : contains "add" "Add" = false.
Proof. reflexivity. Qed.

Example replace_single_pass : replace "xtataskskx" "task" "" = "xtaskx".
Proof. reflexivity. Qed.

Example replace_no_overlap : replace "aaa" "aa" "b" = "ba".
Proof. reflexivity. Qed.

Example replace_empty_old : replace "ab" "" "-" = "-a-b-".
Proof. reflexivity. Qed.

Example strip_both_ends :
  strip (String (ascii_of_nat 9) "  a  b " ++ String (ascii_of_nat 10) "")
  = "a  b".
Proof. reflexivity. Qed.

Example strip_blank : strip "   " = "".
Proof. reflexivity. Qed.

(** U+00A0 before, U+3000 after. *)
Example strip_unicode :
  strip (String (ascii_of_nat 194) (String (ascii_of_nat 160) "a b ")
         ++ String (ascii_of_nat 227)
              (String (ascii_of_nat 128) (String (ascii_of_nat 128) "")))
  = "a b".
Proof. reflexivity. Qed.

Example str_of_int_values :
  (str_of_int 0, str_of_int 42, str_of_int (-7)) = ("0", "42", "-7").
Proof. reflexivity. Qed.

Lemma is_empty_false (s : string) : is_empty s = false -> s <> EmptyString.
Proof. destruct s; [discriminate|]. intros _ H. discriminate H. Qed.

Lemma is_empty_true (s : string) : is_empty s = true -> s = EmptyString.
Proof. destruct s; [reflexivity|discriminate]. Qed.

(** *** Whitespace *)

Lemma is_space_blank (c : ascii) : is_space c = true -> blank_byte c.
Proof.
  unfold is_space, blank_byte. cbv zeta.
  rewrite orb_true_iff, !andb_true_iff, !Nat.leb_le. lia.
Qed.

Lemma is_space2_blank (c1 c2 : ascii) :
  is_space2 c1 c2 = true -> blank_byte c1 /\ blank_byte c2.
Proof.
  unfold is_space2, blank_byte. cbv zeta.
  rewrite andb_true_iff, orb_true_iff, !Nat.eqb_eq. lia.
Qed.

Lemma is_space3_blank (c1 c2 c3 : ascii) :
  is_space3 c1 c2 c3 = true -> blank_byte c1 /\ blank_byte c2 /\ blank_byte c3.
Proof.
  unfold is_space3, blank_byte. cbv zeta.
  rewrite !orb_true_iff, !andb_true_iff, !orb_true_iff, !andb_true_iff,
    !Nat.eqb_eq, !Nat.leb_le. lia.
Qed.

(** Case analysis along [lstrip]: either the string is empty, or it
    starts with a whitespace character of one, two or three bytes, or
    [lstrip] leaves it as it is. *)
Lemma lstrip_cases (s : string) :
  s = EmptyString
  \/ (exists c s', s = String c s' /\ is_space c = true /\ lstrip s = lstrip s')
  \/ (exists c1 c2 s',
        s = String c1 (String c2 s') /\
        (is_space c1 = false /\ is_space2 c1 c2 = true) /\
        lstrip s = lstrip s')
  \/ (exists c1 c2 c3 s',
        s = String c1 (String c2 (String c3 s')) /\
        (is_space c1 = false /\ is_space2 c1 c2 = false /\
         is_space3 c1 c2 c3 = true) /\
        lstrip s = lstrip s')
  \/ (s <> EmptyString /\ lstrip s = s).
Proof.
  destruct s as [|c1 s1]; [left; reflexivity|right].
  cbn [lstrip]. destruct (is_space c1) eqn:E1.
  { left. exists c1, s1. split; [reflexivity|]. split; [exact E1|reflexivity]. }
  right. destruct s1 as [|c2 s2].
  { right. right. split; [discriminate|reflexivity]. }
  destruct (is_space2 c1 c2) eqn:E2.
  { left. exists c1, c2, s2.
    split; [reflexivity|]. split; [split; [exact E1|exact E2]|reflexivity]. }
  right. destruct s2 as [|c3 s3].
  { right. split; [discriminate|reflexivity]. }
  destruct (is_space3 c1 c2 c3) eqn:E3.
  { left. exists c1, c2, c3, s3.
    split; [reflexivity|].
    split; [split; [exact E1|split; [exact E2|exact E3]]|reflexivity]. }
  right. split; [discriminate|reflexivity].
Qed.

Lemma lstrip_idempotent (s : string) : lstrip (lstrip s) = lstrip s.
Proof.
  remember (String.length s) as n eqn:Hn. revert s Hn.
  induction n as [n IH] using lt_wf_ind. intros s Hn.
  destruct (lstrip_cases s)
    as [->|[[c [s' [-> [_ H]]]]|[[c1 [c2 [s' [-> [_ H]]]]]
       |[[c1 [c2 [c3 [s' [-> [_ H]]]]]]|[_ H]]]]].
  - reflexivity.
  - rewrite H. apply (IH (String.length s')); [simpl in Hn; lia|reflexivity].
  - rewrite H. apply (IH (String.length s')); [simpl in Hn; lia|reflexivity].
  - rewrite H. apply (IH (String.length s')); [simpl in Hn; lia|reflexivity].
  - rewrite !H. reflexivity.
Qed.

(** A string that is whitespace from end to end holds whitespace bytes
    only. *)
Lemma blank_bytes (s : string) :
  lstrip s = EmptyString -> Forall blank_byte (list_ascii_of_string s).
Proof.
  remember (String.length s) as n eqn:Hn. revert s Hn.
  induction n as [n IH] using lt_wf_ind. intros s Hn Hs.
  destruct (lstrip_cases s)
    as [->|[[c [s' [-> [E H]]]]|[[c1 [c2 [s' [-> [E H]]]]]
       |[[c1 [c2 [c3 [s' [-> [E H]]]]]]|[Hne H]]]]].
  - constructor.
  - rewrite H in Hs. simpl. constructor; [apply is_space_blank, E|].
    apply (IH (String.length s')); [simpl in Hn; lia|reflexivity|exact Hs].
  - rewrite H in Hs. destruct E as [_ E]. apply is_space2_blank in E.
    destruct E as [E1 E2].
    simpl. constructor; [exact E1|]. constructor; [exact E2|].
    apply (IH (String.length s')); [simpl in Hn; lia|reflexivity|exact Hs].
  - rewrite H in Hs. destruct E as [_ [_ E]]. apply is_space3_blank in E.
    destruct E as [E1 [E2 E3]].
    simpl. constructor; [exact E1|]. constructor; [exact E2|].
    constructor; [exact E3|].
    apply (IH (String.length s')); [simpl in Hn; lia|reflexivity|exact Hs].
  - rewrite H in Hs. contradiction.
Qed.

(** A string of which [strip] leaves nothing is whitespace from end to
    end. *)
Lemma strip_empty (s : string) : strip s = EmptyString -> lstrip s = EmptyString.
Proof.
  unfold strip. destruct (lstrip s) as [|c t] eqn:E; [reflexivity|].
  cbn [rstrip]. destruct (is_empty (lstrip (String c t))) eqn:Ee;
    [|discriminate].
  intros _. apply is_empty_true in Ee.
  rewrite <- E, lstrip_idempotent, E in Ee. discriminate Ee.
Qed.

Lemma lstrip_length (s : string) :
  (String.length (lstrip s) <= String.length s)%nat.
Proof.
  remember (String.length s) as n eqn:Hn. revert s Hn.
  induction n as [n IH] using lt_wf_ind. intros s Hn.
  destruct (lstrip_cases s)
    as [->|[[c [s' [-> [_ H]]]]|[[c1 [c2 [s' [-> [_ H]]]]]
       |[[c1 [c2 [c3 [s' [-> [_ H]]]]]]|[_ H]]]]].
  - simpl. lia.
  - rewrite H. simpl in Hn.
    pose proof (IH (String.length s') ltac:(lia) s' eq_refl). lia.
  - rewrite H. simpl in Hn.
    pose proof (IH (String.length s') ltac:(lia) s' eq_refl). lia.
  - rewrite H. simpl in Hn.
    pose proof (IH (String.length s') ltac:(lia) s' eq_refl). lia.
  - rewrite H. lia.
Qed.

(** Whitespace before a string does not count. *)
Lemma lstrip_app_blank (a z : string) :
  lstrip a = EmptyString -> lstrip (a ++ z) = lstrip z.
Proof.
  remember (String.length a) as n eqn:Hn. revert a Hn.
  induction n as [n IH] using lt_wf_ind. intros a Hn Ha.
  destruct (lstrip_cases a)
    as [->|[[c [a' [-> [E H]]]]|[[c1 [c2 [a' [-> [[E1 E2] H]]]]]
       |[[c1 [c2 [c3 [a' [-> [[E1 [E2 E3]] H]]]]]]|[Hne H]]]]].
  - reflexivity.
  - rewrite H in Ha. cbn [append lstrip]. rewrite E.
    apply (IH (String.length a')); [simpl in Hn; lia|reflexivity|exact Ha].
  - rewrite H in Ha. cbn [append lstrip]. rewrite E1, E2.
    apply (IH (String.length a')); [simpl in Hn; lia|reflexivity|exact Ha].
  - rewrite H in Ha. cbn [append lstrip]. rewrite E1, E2, E3.
    apply (IH (String.length a')); [simpl in Hn; lia|reflexivity|exact Ha].
  - rewrite H in Ha. contradiction.
Qed.

(** A string that [lstrip] leaves alone has only such prefixes. *)
Lemma lstrip_prefix (u z : string) :
  lstrip (u ++ z) = u ++ z -> lstrip u = u.
Proof.
  intros Hz.
  assert (Hlen : forall x : string, lstrip (x ++ z) = u ++ z ->
                 (String.length (u ++ z) <= String.length (x ++ z))%nat).
  { intros x Hx. rewrite <- Hx. apply lstrip_length. }
  destruct (lstrip_cases u)
    as [->|[[c [u' [-> [E H]]]]|[[c1 [c2 [u' [-> [[E1 E2] H]]]]]
       |[[c1 [c2 [c3 [u' [-> [[E1 [E2 E3]] H]]]]]]|[_ H]]]]].
  - reflexivity.
  - exfalso. cbn [append lstrip] in Hz. rewrite E in Hz.
    apply Hlen in Hz. simpl in Hz. lia.
  - exfalso. cbn [append lstrip] in Hz. rewrite E1, E2 in Hz.
    apply Hlen in Hz. simpl in Hz. lia.
  - exfalso. cbn [append lstrip] in Hz. rewrite E1, E2, E3 in Hz.
    apply Hlen in Hz. simpl in Hz. lia.
  - exact H.
Qed.

(** What [rstrip] cuts off is whitespace from end to end. *)
Lemma rstrip_split (t : string) :
  exists z : string, t = rstrip t ++ z /\ lstrip z = EmptyString.
Proof.
  induction t as [|c t IH]; [exists EmptyString; split; reflexivity|].
  cbn [rstrip]. destruct (is_empty (lstrip (String c t))) eqn:E.
  - exists (String c t). split; [reflexivity|apply is_empty_true, E].
  - destruct IH as [z [Ht Hz]]. exists z. split; [|exact Hz].
    simpl. f_equal. exact Ht.
Qed.

Lemma rstrip_idempotent (t : string) : rstrip (rstrip t) = rstrip t.
Proof.
  induction t as [|c t IH]; [reflexivity|].
  cbn [rstrip]. destruct (is_empty (lstrip (String c t))) eqn:E;
    [reflexivity|].
  cbn [rstrip]. rewrite IH.
  destruct (is_empty (lstrip (String c (rstrip t)))) eqn:E';
    [|reflexivity].
  exfalso. apply is_empty_true in E'.
  destruct (rstrip_split t) as [z [Ht Hz]].
  pose proof (lstrip_app_blank (String c (rstrip t)) z E') as H.
  simpl append in H. rewrite <- Ht, Hz in H. rewrite H in E. discriminate E.
Qed.

(** What [strip] returns has no whitespace left at either end. *)
Lemma strip_idempotent (s : string) : strip (strip s) = strip s.
Proof.
  unfold strip. pose proof (lstrip_idempotent s) as Hl.
  destruct (rstrip_split (lstrip s)) as [z [Ht Hz]].
  rewrite Ht in Hl at 1. rewrite Ht in Hl at 2.
  rewrite (lstrip_prefix _ _ Hl). apply rstrip_idempotent.
Qed.

Lemma blank_has_no_nul (s : string) : strip s = EmptyString -> has_nul s = false.
Proof.
  intros H. apply strip_empty, blank_bytes in H.
  induction s as [|c s IH]; [reflexivity|].
  simpl in *. inversion H as [|? ? Hc Hs]. subst.
  rewrite (IH Hs), orb_false_r. apply Nat.eqb_neq.
  destruct Hc as [Hc _]. lia.
Qed.

End PyFacts.

(* ================================================================== *)
(** ** Properties of the agent and of the chat handler *)
(* ================================================================== *)

Module AgentFacts.
Import Py PyFacts BackendMain SpecWords.

(** Case analysis along the [if]/[elif] chain of [run_agent]. *)
Ltac by_keywords message :=
  destruct (contains "add" (lower message)
            || contains "create" (lower message))%bool;
  [|destruct (contains "list" (lower message)
              || contains "show" (lower message))%bool;
    [|destruct (contains "complete" (lower message)
                || contains "done" (lower message))%bool;
      [|destruct (contains "update" (lower message)
                  || contains "change" (lower message))%bool;
        [|destruct (contains "delete" (lower message)
                    || contains "remove" (lower message))%bool]]]].

(** The chain is tried in its fixed order: a message with keywords of
    two branches takes the earlier one. *)
Example intent_update_my_list : intent_of "update my list" = ListTasks.
Proof. reflexivity. Qed.

Example intent_remove_added : intent_of "remove what I added" = AddTask.
Proof. reflexivity. Qed.

Example intent_unknown : intent_of "hello there" = Unknown.
Proof. reflexivity. Qed.

Example run_agent_unknown :
  run_agent "u1" [] "hello there" =
  ("I received your message: 'hello there'. How can I help you with your tasks?",
   []).
Proof. reflexivity. Qed.

Example run_agent_lower_case_add :
  run_agent "u1" [] "add a task to buy groceries" =
  ("I've added the task 'a  to buy groceries' to your list.",
   [mkToolCall "add_task"
      [("user_id", VStr "u1"); ("description", VStr "a  to buy groceries")]]).
Proof. reflexivity. Qed.

(** A no-break space, U+00A0, is whitespace to [str.strip]: after
    "add" nothing is left and the placeholder is used; after "ADD" the
    word alone is the description. *)
Example run_agent_add_no_break_space :
  snd (run_agent "u1" []
         ("add" ++ String (ascii_of_nat 194) (String (ascii_of_nat 160) ""))) =
  [mkToolCall "add_task"
     [("user_id", VStr "u1"); ("description", VStr "a new task")]]
  /\ snd (run_agent "u1" []
            ("ADD" ++ String (ascii_of_nat 194) (String (ascii_of_nat 160) ""))) =
     [mkToolCall "add_task"
        [("user_id", VStr "u1"); ("description", VStr "ADD")]].
Proof. split; reflexivity. Qed.

(** [run_agent] never reads the conversation it is given. *)
Lemma run_agent_ignores_conversation (uid : string) (c1 c2 : list Dict)
      (message : string) :
  run_agent uid c1 message = run_agent uid c2 message.
Proof. reflexivity. Qed.

(** The tool call [run_agent] returns for each intent. *)
Lemma run_agent_tool_names (uid : string) (conversation : list Dict)
      (message : string) :
  map name (snd (run_agent uid conversation message)) =
  match intent_of message with
  | AddTask => ["add_task"]
  | ListTasks => ["list_tasks"]
  | CompleteTask => ["complete_task"]
  | UpdateTask => ["update_task"]
  | DeleteTask => ["delete_task"]
  | Unknown => []
  end.
Proof.
  unfold run_agent, intent_of. by_keywords message; reflexivity.
Qed.

(** *** The description against the words of the specification *)

Lemma lower_tail (c : ascii) (s : string) :
  lower (String c s) = String c s -> lower s = s.
Proof. simpl. intros H. injection H as _ H. exact H. Qed.

(** On a text without capitals, cutting a lower-case literal as typed
    and cutting it whatever its case are the same, and leave a text
    without capitals. *)
Lemma replace_scan_follows_spec (old : string) (s : string) :
  lower old = old -> lower s = s ->
  forall skip : nat,
    strip_literal_scan old skip s = replace_scan old "" skip s /\
    lower (replace_scan old "" skip s) = replace_scan old "" skip s.
Proof.
  intros Ho. induction s as [|c s IH]; intros Hs skip; [split; reflexivity|].
  pose proof (lower_tail c s Hs) as Hs'.
  cbn [strip_literal_scan replace_scan]. destruct skip as [|k].
  - rewrite Ho, Hs. destruct (String.prefix old (String c s)).
    + simpl append. apply IH, Hs'.
    + destruct (IH Hs' O) as [H1 H2]. split.
      * rewrite H1. reflexivity.
      * simpl in Hs. injection Hs as Hc _. simpl. rewrite Hc, H2. reflexivity.
  - apply IH, Hs'.
Qed.

Lemma replace_follows_spec (s old : string) :
  old <> "" -> lower old = old -> lower s = s ->
  strip_literal s old = replace s old "" /\
  lower (replace s old "") = replace s old "".
Proof.
  intros Hne Ho Hs. destruct old as [|a old]; [contradiction|].
  unfold strip_literal, replace. apply replace_scan_follows_spec; assumption.
Qed.

Lemma description_follows_spec (message : string) :
  lower message = message ->
  (let cut :=
     strip (replace (replace (replace message "add" "") "create" "") "task" "") in
   if is_empty cut then "a new task" else cut)
  = spec_description message.
Proof.
  intros Hm. unfold spec_description.
  destruct (replace_follows_spec message "add") as [E1 L1];
    [discriminate|reflexivity|exact Hm|].
  destruct (replace_follows_spec (replace message "add" "") "create")
    as [E2 L2]; [discriminate|reflexivity|exact L1|].
  destruct (replace_follows_spec
              (replace (replace message "add" "") "create" "") "task")
    as [E3 _]; [discriminate|reflexivity|exact L2|].
  rewrite E1, E2, E3. reflexivity.
Qed.

(** C1 (as the code has it).  Every message that holds "add" or
    "create" in any letter case, "Add a task to buy groceries" among
    them, gets the add intent and a description that is never empty and
    has no whitespace at either end.  For a message typed without
    capitals the description is the one the specification words: the
    message with "add", "create" and "task" stripped, trimmed, or
    "a new task" when nothing is left.  For
    "add a task to buy groceries" that is "a  to buy groceries": the
    article stays, and so do the two spaces around the place of
    "task". *)
Theorem add_task_description (uid : string) (conversation : list Dict)
        (message : string) :
  intent_of message = AddTask ->
  exists d : string,
    run_agent uid conversation message =
    ("I've added the task '" ++ d ++ "' to your list.",
     [mkToolCall "add_task"
        [("user_id", VStr uid); ("description", VStr d)]])
    /\ d <> "" /\ strip d = d
    /\ (lower message = message -> d = spec_description message).
Proof.
  intros Hi.
  exists (let cut :=
            strip (replace (replace (replace message "add" "") "create" "")
                           "task" "") in
          if is_empty cut then "a new task" else cut).
  cbv zeta. split; [|split; [|split]].
  - unfold intent_of in Hi. unfold run_agent.
    by_keywords message; first [reflexivity|discriminate Hi].
  - destruct (is_empty _) eqn:E; [discriminate|]. apply is_empty_false, E.
  - destruct (is_empty _); [reflexivity|]. apply strip_idempotent.
  - apply description_follows_spec.
Qed.

Lemma add_task_description_witness :
  intent_of "Add a task to buy groceries" = AddTask /\
  exists d : string,
    run_agent "u1" [] "add a task to buy groceries" =
    ("I've added the task '" ++ d ++ "' to your list.",
     [mkToolCall "add_task"
        [("user_id", VStr "u1"); ("description", VStr d)]])
    /\ d = "a  to buy groceries".
Proof.
  split; [reflexivity|].
  destruct (add_task_description "u1" [] "add a task to buy groceries" eq_refl)
    as [d [Hr [_ [_ Hd]]]].
  exists d. split; [exact Hr|]. rewrite (Hd eq_refl). reflexivity.
Defined.

(** C1 as the specification words it does not hold: the description
    extracted from "Add a task to buy groceries" is not
    "to buy groceries", neither in [run_agent] nor by the rule of the
    specification itself, which leaves "a  to buy groceries". *)
Lemma add_task_description_counterexample :
  snd (run_agent "u1" [] "Add a task to buy groceries") <>
  [mkToolCall "add_task"
     [("user_id", VStr "u1"); ("description", VStr "to buy groceries")]]
  /\ spec_description "Add a task to buy groceries" = "a  to buy groceries"
  /\ snd (run_agent "u1" [] "add a task to buy groceries") =
     [mkToolCall "add_task"
        [("user_id", VStr "u1"); ("description", VStr "a  to buy groceries")]].
Proof.
  split; [|split; reflexivity]. vm_compute. intros H. discriminate H.
Qed.

(** C2 (as the code has it).  Every message with the complete intent
    is answered with the tool call [complete_task] on task 1, whatever
    numbers the message holds. *)
Theorem complete_task_id_is_one (uid : string) (conversation : list Dict)
        (message : string) :
  intent_of message = CompleteTask ->
  run_agent uid conversation message =
  ("I've marked the task as completed.",
   [mkToolCall "complete_task"
      [("user_id", VStr uid); ("task_id", VInt 1)]]).
Proof.
  unfold intent_of, run_agent. intros Hi.
  repeat match type of Hi with
         | (if ?b then _ else _) = _ =>
             destruct b; [first [discriminate Hi | reflexivity]|]
         end.
  discriminate Hi.
Qed.

Lemma complete_task_id_is_one_witness :
  intent_of "complete task 5" = CompleteTask /\
  run_agent "u1" [] "complete task 5" =
  ("I've marked the task as completed.",
   [mkToolCall "complete_task"
      [("user_id", VStr "u1"); ("task_id", VInt 1)]]).
Proof.
  split; [reflexivity|].
  exact (complete_task_id_is_one "u1" [] "complete task 5" eq_refl).
Defined.

(** C2 as the specification words it does not hold: for
    "complete task 5" the task id of the tool call is not 5. *)
Lemma complete_task_id_counterexample :
  intent_of "complete task 5" = CompleteTask /\
  map (fun tc => dict_get (arguments tc) "task_id" VNone)
      (snd (run_agent "u1" [] "complete task 5")) <> [VInt 5].
Proof. split; [reflexivity|]. vm_compute. intros H. discriminate H. Qed.

(** *** The chat handler *)

(** [chat] along the first call on the session that raises. *)
Lemma chat_run (tools : Tools) (env : Env) (session : Session)
      (uid message : string) :
  chat_with tools env session uid message =
  let with_user :=
    add_commit session (uuid4 env) uid "user" message (utcnow_user env) in
  let text := fst (run_agent uid [] message) in
  let with_both :=
    add_commit with_user (uuid4 env) uid "assistant" text
               (utcnow_assistant env) in
  match first_raised env with
  | Some (ExecHistory, e) | Some (CommitUser, e) =>
      error_processing_chat session [] e
  | Some (RefreshUser, e) | Some (CommitAssistant, e) =>
      error_processing_chat with_user [] e
  | None =>
      match execute_tools tools (snd (run_agent uid [] message)) with
      | (done, Return _) =>
          mkRun with_both done
                (Replied (mkChatResponse (uuid4 env) text
                                         (snd (run_agent uid [] message))))
      | (done, Raise e) => error_processing_chat with_both done e
      end
  end.
Proof.
  unfold chat_with, first_raised.
  destruct (raises env ExecHistory); [reflexivity|].
  destruct (raises env CommitUser); [reflexivity|].
  destruct (raises env RefreshUser); [reflexivity|].
  rewrite (run_agent_ignores_conversation uid _ [] message).
  destruct (run_agent uid [] message) as [text tcs].
  destruct (raises env CommitAssistant); reflexivity.
Qed.

(** What [chat] ends with and what it awaits do not mention the table. *)
Lemma chat_outcome (tools : Tools) (env : Env) (session : Session)
      (uid message : string) :
  outcome (chat_with tools env session uid message) =
  match first_raised env with
  | Some (_, e) => HTTPException 500 ("Error processing chat: " ++ e)
  | None =>
      match snd (execute_tools tools (snd (run_agent uid [] message))) with
      | Return _ =>
          Replied (mkChatResponse (uuid4 env) (fst (run_agent uid [] message))
                                  (snd (run_agent uid [] message)))
      | Raise e => HTTPException 500 ("Error processing chat: " ++ e)
      end
  end.
Proof.
  rewrite chat_run. cbv zeta.
  destruct (first_raised env) as [[[] e]|]; try reflexivity.
  destruct (execute_tools tools _) as [done [u|e]]; reflexivity.
Qed.

Lemma chat_awaited (tools : Tools) (env : Env) (session : Session)
      (uid message : string) :
  awaited (chat_with tools env session uid message) =
  match first_raised env with
  | Some _ => []
  | None => fst (execute_tools tools (snd (run_agent uid [] message)))
  end.
Proof.
  rewrite chat_run. cbv zeta.
  destruct (first_raised env) as [[[] e]|]; try reflexivity.
  destruct (execute_tools tools _) as [done [u|e]]; reflexivity.
Qed.

Lemma chat_session_after (tools : Tools) (env : Env) (session : Session)
      (uid message : string) :
  session_after (chat_with tools env session uid message) =
  let with_user :=
    add_commit session (uuid4 env) uid "user" message (utcnow_user env) in
  match first_raised env with
  | Some (ExecHistory, _) | Some (CommitUser, _) => session
  | Some (RefreshUser, _) | Some (CommitAssistant, _) => with_user
  | None =>
      add_commit with_user (uuid4 env) uid "assistant"
                 (fst (run_agent uid [] message)) (utcnow_assistant env)
  end.
Proof.
  rewrite chat_run. cbv zeta.
  destruct (first_raised env) as [[[] e]|]; try reflexivity.
  destruct (execute_tools tools _) as [done [u|e]]; reflexivity.
Qed.








End AgentFacts.

(* ================================================================== *)
(** ** Properties of the task store *)
(* ================================================================== *)

Module StoreFacts.
Import Py McpTools Calls.

(** A short session on each engine. *)

Example session_on_postgresql :
  map success
      (snd (calls (empty_database PostgreSQL)
                  [CallAdd 1 1 "u1" "wash" None;
                   CallComplete 2 "u2" 1;
                   CallComplete 3 "u1" 1;
                   CallUpdate 4 "u1" 1 None (Some "the car");
                   CallDelete "u1" 5;
                   CallDelete "u1" 1;
                   CallList "u1" "all"]))
  = [true; false; true; true; false; true; true]
  /\ rows (fst (calls (empty_database PostgreSQL)
                      [CallAdd 1 1 "u1" "wash" None;
                       CallComplete 3 "u1" 1;
                       CallUpdate 4 "u1" 1 None (Some "the car")]))
     = [mkTask 1 "u1" "wash" (Some "the car") true 1 4].
Proof. split; reflexivity. Qed.

Example list_filters :
  let db := fst (calls (empty_database SQLite)
                       [CallAdd 1 1 "u1" "wash" None;
                        CallAdd 2 2 "u2" "cook" None;
                        CallAdd 3 3 "u1" "iron" None;
                        CallComplete 4 "u1" 3]) in
  Permutation (listed_ids (snd (list_tasks db "u1" "all"))) [1; 3] /\
  listed_ids (snd (list_tasks db "u1" "pending")) = [1] /\
  listed_ids (snd (list_tasks db "u1" "completed")) = [3] /\
  Permutation (listed_ids (snd (list_tasks db "u1" "other"))) [1; 3] /\
  listed_ids (snd (list_tasks db "u3" "all")) = [].
Proof. intros db. repeat split; apply Permutation_refl. Qed.

(** *** Lookup by primary key *)

Lemma get_some (db : Database) (k : Z) (t : Task) :
  get db k = Some t -> id t = k /\ In t (rows db).
Proof.
  unfold get. intros H. apply find_some in H. destruct H as [Hin Hk].
  split; [apply Z.eqb_eq, Hk|exact Hin].
Qed.

Lemma get_none (db : Database) (k : Z) :
  get db k = None <-> ~ In k (map id (rows db)).
Proof.
  unfold get. split.
  - intros H Hin. apply in_map_iff in Hin. destruct Hin as [t [Ht Hin]].
    apply (find_none _ _ H) in Hin. simpl in Hin.
    rewrite Ht, Z.eqb_refl in Hin. discriminate Hin.
  - intros H. destruct (find _ _) as [t|] eqn:E; [|reflexivity].
    exfalso. apply H. apply find_some in E. destruct E as [Hin Hk].
    apply Z.eqb_eq in Hk. subst k. apply in_map, Hin.
Qed.

Lemma merge_ids (db : Database) (t' : Task) :
  map id (rows (merge db t')) = map id (rows db).
Proof.
  unfold merge. simpl. induction (rows db) as [|t l IH]; [reflexivity|].
  simpl. rewrite IH. f_equal.
  destruct (id t =? id t') eqn:E; [|reflexivity].
  symmetry. apply Z.eqb_eq, E.
Qed.

Lemma get_merge_same (db : Database) (t t' : Task) :
  get db (id t') = Some t -> get (merge db t') (id t') = Some t'.
Proof.
  unfold get, merge. simpl. induction (rows db) as [|x l IH]; [discriminate|].
  simpl. destruct (id x =? id t') eqn:E.
  - intros _. rewrite Z.eqb_refl. reflexivity.
  - rewrite E. exact IH.
Qed.

Lemma get_merge_at (db : Database) (t t' : Task) (k : Z) :
  get db k = Some t -> id t' = k -> get (merge db t') k = Some t'.
Proof. intros Hg <-. apply (get_merge_same db t), Hg. Qed.

Lemma get_merge_other (db : Database) (t' : Task) (k : Z) :
  k <> id t' -> get (merge db t') k = get db k.
Proof.
  intros Hk. unfold get, merge. simpl.
  induction (rows db) as [|x l IH]; [reflexivity|].
  simpl. destruct (id x =? id t') eqn:E.
  - apply Z.eqb_eq in E.
    assert (H1 : (id t' =? k) = false) by (apply Z.eqb_neq; congruence).
    assert (H2 : (id x =? k) = false) by (apply Z.eqb_neq; congruence).
    rewrite H1, H2. exact IH.
  - destruct (id x =? k); [reflexivity|exact IH].
Qed.

Lemma delete_ids (db : Database) (t : Task) (k : Z) :
  In k (map id (rows (delete db t))) <->
  In k (map id (rows db)) /\ k <> id t.
Proof.
  unfold delete. simpl. rewrite !in_map_iff. split.
  - intros [x [Hx Hin]]. apply filter_In in Hin. destruct Hin as [Hin Hf].
    apply negb_true_iff, Z.eqb_neq in Hf. split; [|congruence].
    exists x. split; assumption.
  - intros [[x [Hx Hin]] Hk]. exists x. split; [exact Hx|].
    apply filter_In. split; [exact Hin|].
    apply negb_true_iff, Z.eqb_neq. congruence.
Qed.

(** *** The two kinds of refusal *)


(** While the store is unreachable every method reports the error
    text of the store and changes nothing. *)
Lemma fault_is_reported (db : Database) (e : string) (c : Call) :
  fault db = Some e -> call db c = (db, failed e).
Proof.
  intros H. destruct c; simpl;
    unfold add_task, list_tasks, complete_task, delete_task, update_task;
    rewrite H; reflexivity.
Qed.

Lemma bind_blank (db : Database) (s : string) : strip s = "" -> bind db s = None.
Proof.
  intros H. unfold bind. rewrite (PyFacts.blank_has_no_nul s H).
  destruct (backend db); reflexivity.
Qed.

(** What a successful [add_task] has done. *)
Lemma add_task_bound (db : Database) (created updated : Z)
      (uid title : string) (descr : option string) :
  fault db = None -> bind_all db [Some uid; Some title; descr] = None ->
  add_task db created updated uid title descr =
  (insert db (mkTask (next_id db) uid title descr false created updated),
   succeeded [("task_id", VInt (next_id db));
              ("user_id", VStr uid);
              ("title", VStr title);
              ("description", opt_str descr);
              ("completed", VBool false);
              ("created_at", VTime created)]).
Proof. intros Hf Hb. unfold add_task. rewrite Hf, Hb. reflexivity. Qed.

(** C4 (as the code has it).  [add_task] makes no check of the title.
    On a reachable store whose driver takes the user id and the
    description, a title that is empty once trimmed is accepted: the
    call succeeds without error and the table holds exactly one task
    more, with the title as given and [completed] false, which the
    "all" listing of the owner shows. *)
Theorem add_task_accepts_blank_titles (db : Database) (created updated : Z)
        (uid title : string) (descr : option string) :
  fault db = None -> bind_all db [Some uid; descr] = None ->
  strip title = "" ->
  let task := mkTask (next_id db) uid title descr false created updated in
  let db' := fst (add_task db created updated uid title descr) in
  success (snd (add_task db created updated uid title descr)) = true
  /\ error (snd (add_task db created updated uid title descr)) = None
  /\ Permutation (rows db') (task :: rows db)
  /\ (forall t : Task,
        In t (select_tasks db' uid "all") <->
        t = task \/ In t (select_tasks db uid "all")).
Proof.
  intros Hf Hb Ht task db'.
  assert (Hall : bind_all db [Some uid; Some title; descr] = None).
  { cbn [bind_all] in *. destruct (bind db uid); [discriminate Hb|].
    rewrite (bind_blank db title Ht). exact Hb. }
  unfold db'. rewrite (add_task_bound db created updated uid title descr Hf Hall).
  cbn [fst snd success error succeeded].
  split; [reflexivity|]. split; [reflexivity|]. split.
  - unfold insert. cbn [rows]. apply Permutation_sym, Permutation_cons_append.
  - intros t. unfold select_tasks, insert. cbn [rows]. simpl.
    rewrite filter_app, in_app_iff. simpl. rewrite String.eqb_refl.
    simpl. split.
    + intros [H|[H|[]]]; [right; exact H|left; symmetry; exact H].
    + intros [H|H]; [right; left; symmetry; exact H|left; exact H].
Qed.

Lemma add_task_accepts_blank_titles_witness :
  strip "   " = "" /\
  success (snd (add_task (empty_database PostgreSQL) 7 7 "u1" "   " None)) = true /\
  Permutation
    (rows (fst (add_task (empty_database PostgreSQL) 7 7 "u1" "   " None)))
    [mkTask 1 "u1" "   " None false 7 7].
Proof.
  split; [reflexivity|].
  destruct (add_task_accepts_blank_titles
              (empty_database PostgreSQL) 7 7 "u1" "   " None
              eq_refl eq_refl eq_refl)
    as [H1 [_ [H2 _]]].
  split; [exact H1|exact H2].
Defined.

(** C4 as the specification words it does not hold: a title of three
    spaces is empty once stripped, and [add_task] succeeds and stores
    it. *)
Lemma add_task_blank_title_counterexample :
  strip "   " = "" /\
  success (snd (add_task (empty_database SQLite) 7 7 "u1" "   " None)) = true /\
  map title (rows (fst (add_task (empty_database SQLite) 7 7 "u1" "   " None))) =
  ["   "].
Proof. repeat split. Qed.

Lemma session_get_found (db : Database) (k : Z) (t : Task) :
  get db k = Some t -> session_get db k = Found t.
Proof. intros H. unfold session_get. rewrite H. reflexivity. Qed.

Lemma session_get_found_inv (db : Database) (k : Z) (t : Task) :
  session_get db k = Found t -> get db k = Some t.
Proof.
  unfold session_get. destruct (get db k) as [x|].
  - intros H. injection H as <-. reflexivity.
  - destruct (backend db); [discriminate|]. destruct (int64 k); discriminate.
Qed.

Lemma session_get_missing (db : Database) (k : Z) :
  get db k = None -> (backend db = SQLite -> int64 k = true) ->
  session_get db k = Missing.
Proof.
  intros H Hk. unfold session_get. rewrite H.
  destruct (backend db); [reflexivity|]. rewrite (Hk eq_refl). reflexivity.
Qed.





(** *** Completing and updating *)

Lemma complete_task_owned (db : Database) (now : Z) (uid : string)
      (task_id : Z) (task : Task) :
  fault db = None -> get db task_id = Some task -> user_id task = uid ->
  let task' := mkTask (id task) (user_id task) (title task) (description task)
                      true (created_at task) now in
  complete_task db now uid task_id =
  (merge db task',
   succeeded [("task_id", VInt (id task)); ("user_id", VStr uid);
              ("title", VStr (title task)); ("completed", VBool true);
              ("updated_at", VTime now)]).
Proof.
  intros Hf Hg Hu task'. unfold complete_task.
  rewrite Hf, (session_get_found db task_id task Hg).
  apply String.eqb_eq in Hu. rewrite Hu. reflexivity.
Qed.

(** C8.  On a reachable store, for a task the caller owns, a first
    and a second [complete_task] both succeed without error, both
    report [completed] true, and the stored task has [completed] true
    after the first call and after the second; the second call changes
    nothing but the update time. *)
Theorem complete_task_idempotent (db : Database) (now1 now2 : Z)
        (uid : string) (task_id : Z) (task : Task) :
  fault db = None -> get db task_id = Some task -> user_id task = uid ->
  let first := complete_task db now1 uid task_id in
  let second := complete_task (fst first) now2 uid task_id in
  let done (now : Z) :=
    mkTask (id task) (user_id task) (title task) (description task)
           true (created_at task) now in
  (success (snd first) = true /\ error (snd first) = None)
  /\ (success (snd second) = true /\ error (snd second) = None)
  /\ get (fst first) task_id = Some (done now1)
  /\ get (fst second) task_id = Some (done now2)
  /\ (forall d : Dict, data (snd first) = Some d ->
                        dict_get d "completed" VNone = VBool true)
  /\ (forall d : Dict, data (snd second) = Some d ->
                        dict_get d "completed" VNone = VBool true)
  /\ (forall k : Z, k <> task_id -> get (fst second) k = get db k).
Proof.
  intros Hf Hg Hu first second done.
  destruct (get_some _ _ _ Hg) as [Hid _].
  assert (H1 : first = complete_task db now1 uid task_id) by reflexivity.
  rewrite (complete_task_owned db now1 uid task_id task Hf Hg Hu) in H1.
  assert (Hg1 : get (fst first) task_id = Some (done now1)).
  { rewrite H1. simpl fst. rewrite <- Hid.
    apply (get_merge_same db task (done now1)). simpl. rewrite Hid. exact Hg. }
  assert (H2 : second = complete_task (fst first) now2 uid task_id)
    by reflexivity.
  rewrite (complete_task_owned (fst first) now2 uid task_id (done now1)) in H2;
    [|rewrite H1; exact Hf|exact Hg1|exact Hu].
  simpl in H2.
  assert (Hg2 : get (fst second) task_id = Some (done now2)).
  { rewrite H2. simpl fst. rewrite <- Hid.
    apply (get_merge_same (fst first) (done now1) (done now2)).
    simpl. rewrite Hid. exact Hg1. }
  split; [rewrite H1; split; reflexivity|].
  split; [rewrite H2; split; reflexivity|].
  split; [exact Hg1|]. split; [exact Hg2|].
  split; [rewrite H1; simpl; intros d Hd; injection Hd as <-; reflexivity|].
  split; [rewrite H2; simpl; intros d Hd; injection Hd as <-; reflexivity|].
  intros k Hk. rewrite H2. simpl fst.
  rewrite get_merge_other by (simpl; congruence).
  rewrite H1. simpl fst. apply get_merge_other. simpl. congruence.
Qed.

Lemma complete_task_idempotent_witness :
  let db := mkDatabase SQLite None 0 [mkTask 1 "alice" "wash" None false 3 3] in
  success (snd (complete_task (fst (complete_task db 8 "alice" 1)) 9 "alice" 1))
  = true /\
  get (fst (complete_task (fst (complete_task db 8 "alice" 1)) 9 "alice" 1)) 1
  = Some (mkTask 1 "alice" "wash" None true 3 9).
Proof.
  intros db.
  destruct (complete_task_idempotent db 8 9 "alice" 1
              (mkTask 1 "alice" "wash" None false 3 3)
              eq_refl eq_refl eq_refl)
    as [_ [[H _] [_ [G _]]]].
  split; [exact H|exact G].
Defined.

(** C9.  Every successful [update_task] leaves in the table, under
    the same id, a task whose title is the supplied one, or the old
    one when none was supplied, whose description is the supplied one,
    or the old one when none was supplied, and whose owner, completed
    flag and creation time are the old ones; every other task is
    untouched. *)
Theorem update_task_changes_only_supplied_fields (db db' : Database)
        (now : Z) (uid : string) (task_id : Z)
        (new_title new_descr : option string) (r : Response) :
  update_task db now uid task_id new_title new_descr = (db', r) ->
  success r = true ->
  exists task task' : Task,
    get db task_id = Some task /\ get db' task_id = Some task'
    /\ title task' =
       match new_title with Some t => t | None => title task end
    /\ description task' =
       match new_descr with Some d => Some d | None => description task end
    /\ id task' = id task
    /\ user_id task' = user_id task
    /\ completed task' = completed task
    /\ created_at task' = created_at task
    /\ updated_at task' = now
    /\ (forall k : Z, k <> task_id -> get db' k = get db k).
Proof.
  unfold update_task. intros H Hs.
  destruct (fault db) as [e|];
    [injection H as <- <-; discriminate Hs|].
  destruct (session_get db task_id) as [task| |e] eqn:Hsg;
    [|injection H as <- <-; discriminate Hs..].
  apply session_get_found_inv in Hsg. rename Hsg into Hg.
  destruct (negb (String.eqb (user_id task) uid));
    [injection H as <- <-; discriminate Hs|].
  destruct (bind_all db [new_title; new_descr]);
    [injection H as <- <-; discriminate Hs|].
  destruct (get_some _ _ _ Hg) as [Hid _].
  injection H as Hdb _. subst db'.
  exists task.
  destruct new_title, new_descr; simpl;
    eexists; (split; [exact Hg|]);
    (split; [apply (get_merge_at db task); [exact Hg|exact Hid]|]);
    repeat split;
    intros k Hk; apply get_merge_other; simpl; congruence.
Qed.

Lemma update_task_changes_only_supplied_fields_witness :
  let db := mkDatabase SQLite None 0
              [mkTask 1 "alice" "wash" (Some "car") true 3 3] in
  exists task' : Task,
    get (fst (update_task db 9 "alice" 1 (Some "rinse") None)) 1 = Some task'
    /\ title task' = "rinse" /\ description task' = Some "car"
    /\ completed task' = true.
Proof.
  intros db.
  destruct (update_task_changes_only_supplied_fields
              db (fst (update_task db 9 "alice" 1 (Some "rinse") None))
              9 "alice" 1 (Some "rinse") None
              (snd (update_task db 9 "alice" 1 (Some "rinse") None))
              eq_refl eq_refl)
    as [task [task' [Hg [Hg' [Ht [Hd [_ [_ [Hc _]]]]]]]]].
  exists task'. injection Hg as <-.
  split; [exact Hg'|]. split; [exact Ht|]. split; [exact Hd|exact Hc].
Defined.

(** *** The invariant of the table *)

Lemma max_id_bound (l : list Task) (t : Task) : In t l -> id t <= max_id l.
Proof.
  unfold max_id. induction l as [|x l IH]; [intros []|].
  simpl. intros [<-|Hin]; [lia|]. specialize (IH Hin). lia.
Qed.

Lemma consistent_empty (b : Backend) : consistent (empty_database b).
Proof. split; [constructor|intros _; constructor]. Qed.

Lemma next_id_fresh (db : Database) :
  consistent db -> Forall (fun t => id t < next_id db) (rows db).
Proof.
  intros [_ Hs]. unfold next_id. apply Forall_forall. intros t Hin.
  destruct (backend db) eqn:Hb.
  - specialize (Hs eq_refl). rewrite Forall_forall in Hs.
    specialize (Hs t Hin). simpl in Hs. lia.
  - pose proof (max_id_bound _ _ Hin). lia.
Qed.





Lemma calls_cons (db : Database) (c : Call) (cs : list Call) :
  fst (calls db (c :: cs)) = fst (calls (fst (call db c)) cs).
Proof.
  simpl. destruct (call db c) as [db1 r]. simpl.
  destruct (calls db1 cs). reflexivity.
Qed.

(** What a call does to the table: nothing; or, for a successful
    [add_task], one row more under the next id, which it reports; or,
    for a successful [complete_task] or [update_task], the caller's row
    rewritten under its id with its owner and creation time, and never
    back from completed; or, for a successful [delete_task], the
    caller's row removed. *)
Lemma call_effect (db : Database) (c : Call) :
  (fst (call db c) = db /\ added_id c (snd (call db c)) = None)
  \/ (is_add c = true /\ fault db = None /\
      added_id c (snd (call db c)) = Some (next_id db) /\
      exists task : Task,
        id task = next_id db /\ user_id task = caller_of c /\
        fst (call db c) = insert db task)
  \/ (is_add c = false /\ deletes (id_of c) c = false /\
      added_id c (snd (call db c)) = None /\
      exists task task' : Task,
        get db (id_of c) = Some task /\ user_id task = caller_of c /\
        id task' = id task /\ user_id task' = user_id task /\
        created_at task' = created_at task /\
        (completed task = true -> completed task' = true) /\
        fst (call db c) = merge db task')
  \/ (is_add c = false /\ deletes (id_of c) c = true /\
      added_id c (snd (call db c)) = None /\
      exists task : Task,
        get db (id_of c) = Some task /\ user_id task = caller_of c /\
        fst (call db c) = delete db task).
Proof.
  destruct c; cbn [call];
    unfold add_task, list_tasks, complete_task, delete_task, update_task;
    (destruct (fault db) eqn:Hf; [left; split; reflexivity|]).
  - destruct (bind_all db _); [left; split; reflexivity|].
    right. left. cbn [fst snd].
    split; [reflexivity|]. split; [reflexivity|]. split; [reflexivity|].
    match goal with |- context [insert db ?t] => exists t end.
    repeat split.
  - destruct (bind db uid); left; split; reflexivity.
  - destruct (session_get db task_id) as [task| |e] eqn:Hg;
      [|left; split; reflexivity..].
    apply session_get_found_inv in Hg.
    destruct (String.eqb (user_id task) uid) eqn:Hu; cbn [negb];
      [|left; split; reflexivity].
    apply String.eqb_eq in Hu. right. right. left.
    split; [reflexivity|]. split; [reflexivity|]. split; [reflexivity|].
    exists task. cbn [fst].
    match goal with |- context [merge db ?t] => exists t end.
    split; [exact Hg|]. split; [exact Hu|].
    cbn. repeat split.
  - destruct (session_get db task_id) as [task| |e] eqn:Hg;
      [|left; split; reflexivity..].
    apply session_get_found_inv in Hg.
    destruct (String.eqb (user_id task) uid) eqn:Hu; cbn [negb];
      [|left; split; reflexivity].
    apply String.eqb_eq in Hu. right. right. right.
    split; [reflexivity|]. split; [apply Z.eqb_refl|].
    split; [reflexivity|].
    exists task. split; [exact Hg|]. split; [exact Hu|reflexivity].
  - destruct (session_get db task_id) as [task| |e] eqn:Hg;
      [|left; split; reflexivity..].
    apply session_get_found_inv in Hg.
    destruct (String.eqb (user_id task) uid) eqn:Hu; cbn [negb];
      [|left; split; reflexivity].
    destruct (bind_all db _); [left; split; reflexivity|].
    apply String.eqb_eq in Hu. right. right. left.
    split; [reflexivity|]. split; [reflexivity|]. split; [reflexivity|].
    exists task. cbn [fst].
    match goal with |- context [merge db ?t] => exists t end.
    split; [exact Hg|]. split; [exact Hu|].
    destruct new_title, new_description; cbn; repeat split;
      intros H; exact H.
Qed.



Lemma call_backend (db : Database) (c : Call) :
  backend (fst (call db c)) = backend db /\
  fault (fst (call db c)) = fault db.
Proof.
  destruct (call_effect db c)
    as [[-> _]|[[_ [_ [_ [task [Hid [_ ->]]]]]]
       |[[_ [_ [_ [task [task' [_ [_ [_ [_ [_ [_ ->]]]]]]]]]]]
        |[_ [_ [_ [task [_ [_ ->]]]]]]]]];
    split; reflexivity.
Qed.

(** *** Deleted tasks *)

Lemma listed_ids_of_list_tasks (db : Database) (who status : string) :
  fault db = None -> bind db who = None ->
  listed_ids (snd (list_tasks db who status)) =
  map id (select_tasks db who status).
Proof.
  intros Hf Hb. unfold list_tasks. rewrite Hf, Hb. unfold listed_ids. simpl.
  induction (select_tasks db who status) as [|t l IH]; [reflexivity|].
  simpl. rewrite IH. reflexivity.
Qed.

(** A listing that fails lists nothing, whatever the filter. *)
Lemma listed_ids_failing (db : Database) (who : string) :
  (forall status : string, listed_ids (snd (list_tasks db who status)) = [])
  \/ (fault db = None /\ bind db who = None).
Proof.
  destruct (fault db) as [e|] eqn:Hf;
    [left; intros status; unfold list_tasks; rewrite Hf; reflexivity|].
  destruct (bind db who) as [e|] eqn:Hb;
    [left; intros status; unfold list_tasks; rewrite Hf, Hb; reflexivity|].
  right. split; reflexivity.
Qed.

Lemma listed_ids_cases (db : Database) (who status : string) :
  listed_ids (snd (list_tasks db who status)) = [] \/
  (fault db = None /\ bind db who = None /\
   listed_ids (snd (list_tasks db who status)) =
   map id (select_tasks db who status)).
Proof.
  destruct (fault db) as [e|] eqn:Hf;
    [left; unfold list_tasks; rewrite Hf; reflexivity|].
  destruct (bind db who) as [e|] eqn:Hb;
    [left; unfold list_tasks; rewrite Hf, Hb; reflexivity|].
  right. split; [reflexivity|]. split; [reflexivity|].
  apply listed_ids_of_list_tasks; assumption.
Qed.

Lemma select_tasks_in_rows (db : Database) (who status : string) (t : Task) :
  In t (select_tasks db who status) -> In t (rows db).
Proof.
  unfold select_tasks.
  destruct (String.eqb status "pending");
    [|destruct (String.eqb status "completed")];
    intros H; repeat (apply filter_In in H; destruct H as [H _]); exact H.
Qed.

Lemma listed_ids_in_table (db : Database) (who status : string) (k : Z) :
  In k (listed_ids (snd (list_tasks db who status))) ->
  In k (map id (rows db)).
Proof.
  destruct (listed_ids_cases db who status) as [->|[_ [_ ->]]]; [intros []|].
  rewrite !in_map_iff. intros [t [Ht Hin]]. exists t.
  split; [exact Ht|]. apply (select_tasks_in_rows db who status), Hin.
Qed.

(** A call brings into the table no id but the one it reports as
    added. *)
Lemma call_keeps_absent (db : Database) (c : Call) (k : Z) :
  added_id c (snd (call db c)) <> Some k ->
  ~ In k (map id (rows db)) -> ~ In k (map id (rows (fst (call db c)))).
Proof.
  intros Ha Hk.
  destruct (call_effect db c)
    as [[-> _]|[[_ [_ [Hn [task [Hid [_ ->]]]]]]
       |[[_ [_ [_ [task [task' [_ [_ [_ [_ [_ [_ ->]]]]]]]]]]]
        |[_ [_ [_ [task [_ [_ ->]]]]]]]]].
  - exact Hk.
  - unfold insert. cbn [rows]. rewrite map_app, in_app_iff. simpl.
    intros [H|[H|[]]]; [exact (Hk H)|]. apply Ha. rewrite Hn. congruence.
  - rewrite merge_ids. exact Hk.
  - intros Hin. apply delete_ids in Hin. apply Hk, Hin.
Qed.

Lemma issued_cons (db : Database) (c : Call) (cs : list Call) :
  issued db (c :: cs) =
  match added_id c (snd (call db c)) with
  | Some n => n :: issued (fst (call db c)) cs
  | None => issued (fst (call db c)) cs
  end.
Proof. simpl. destruct (call db c). reflexivity. Qed.

Lemma calls_keep_absent (cs : list Call) (db : Database) (k : Z) :
  ~ In k (issued db cs) ->
  ~ In k (map id (rows db)) ->
  ~ In k (map id (rows (fst (calls db cs)))).
Proof.
  revert db. induction cs as [|c cs IH]; intros db Hi Hk; [exact Hk|].
  rewrite calls_cons. rewrite issued_cons in Hi. apply IH.
  - destruct (added_id c (snd (call db c))); [|exact Hi].
    intros H. apply Hi. right. exact H.
  - apply call_keeps_absent; [|exact Hk].
    destruct (added_id c (snd (call db c))) as [n|]; [|discriminate].
    intros H. injection H as ->. apply Hi. left. reflexivity.
Qed.

Lemma calls_fault (cs : list Call) (db : Database) :
  backend (fst (calls db cs)) = backend db /\
  fault (fst (calls db cs)) = fault db.
Proof.
  revert db. induction cs as [|c cs IH]; intros db; [split; reflexivity|].
  rewrite calls_cons. destruct (IH (fst (call db c))) as [H1 H2].
  destruct (call_backend db c) as [H3 H4]. split; congruence.
Qed.

(** What a successful [delete_task] has done. *)
Lemma delete_task_succeeded (db db1 : Database) (uid : string) (task_id : Z)
      (r : Response) :
  delete_task db uid task_id = (db1, r) -> success r = true ->
  fault db = None /\
  exists task : Task,
    get db task_id = Some task /\ user_id task = uid /\ db1 = delete db task.
Proof.
  unfold delete_task. intros H Hs.
  destruct (fault db) as [e|]; [injection H as <- <-; discriminate Hs|].
  split; [reflexivity|].
  destruct (session_get db task_id) as [task| |e] eqn:Hg;
    [|injection H as <- <-; discriminate Hs..].
  apply session_get_found_inv in Hg.
  destruct (String.eqb (user_id task) uid) eqn:Hu; simpl in H;
    [|injection H as <- <-; discriminate Hs].
  exists task. apply String.eqb_eq in Hu. injection H as <- _.
  repeat split; assumption.
Qed.

Lemma added_id_is_next (db : Database) (c : Call) (n : Z) :
  added_id c (snd (call db c)) = Some n ->
  is_add c = true /\ fault db = None /\ n = next_id db.
Proof.
  destruct (call_effect db c)
    as [[_ Hn]|[[Ha [Hf [Hn _]]]|[[_ [_ [Hn _]]]|[_ [_ [Hn _]]]]]];
    rewrite Hn; intros H; try discriminate H.
  injection H as <-. repeat split; assumption.
Qed.

Lemma call_serial (db : Database) (c : Call) :
  backend db = PostgreSQL ->
  match added_id c (snd (call db c)) with
  | Some n => n = serial db + 1 /\ serial (fst (call db c)) = n
  | None => serial (fst (call db c)) = serial db
  end.
Proof.
  intros Hb.
  destruct (call_effect db c)
    as [[-> Hn]|[[_ [_ [Hn [task [_ [_ ->]]]]]]
       |[[_ [_ [Hn [task [task' [_ [_ [_ [_ [_ [_ ->]]]]]]]]]]]
        |[_ [_ [Hn [task [_ [_ ->]]]]]]]]]; rewrite Hn; try reflexivity.
  unfold next_id, insert. cbn [serial]. rewrite Hb. split; reflexivity.
Qed.

(** On PostgreSQL the ids given out along any sequence of calls go
    strictly up, starting above the sequence value. *)
Lemma issued_increasing (cs : list Call) (db : Database) :
  backend db = PostgreSQL ->
  StronglySorted Z.lt (issued db cs) /\
  Forall (fun n => serial db < n) (issued db cs).
Proof.
  revert db. induction cs as [|c cs IH]; intros db Hb.
  - split; constructor.
  - rewrite issued_cons. pose proof (call_serial db c Hb) as Hs.
    assert (Hb1 : backend (fst (call db c)) = PostgreSQL)
      by (rewrite (proj1 (call_backend db c)); exact Hb).
    destruct (IH _ Hb1) as [Hsorted Habove].
    destruct (added_id c (snd (call db c))) as [n|].
    + destruct Hs as [Hn Hs]. rewrite Hs in Habove. split.
      * constructor; assumption.
      * constructor; [lia|].
        eapply Forall_impl; [|exact Habove]. simpl. intros; lia.
    + rewrite Hs in Habove. split; assumption.
Qed.

(** C7 (as the code has it).  After a successful [delete_task] on an
    id the engine can hold, and for as long as no later [add_task] is
    given that id again, the id is out of the table: no [list_tasks],
    for any user and filter, shows it, and [complete_task],
    [update_task] and [delete_task] on it answer not found and change
    nothing.  On PostgreSQL no later [add_task] is ever given it: the
    sequence has passed it. *)
Theorem deleted_task_stays_deleted (db db1 : Database) (uid : string)
        (task_id : Z) (r : Response) (later : list Call) :
  delete_task db uid task_id = (db1, r) -> success r = true ->
  (backend db = SQLite -> int64 task_id = true) ->
  (~ In task_id (issued db1 later) ->
   let db2 := fst (calls db1 later) in
   (forall who status : string,
       ~ In task_id (listed_ids (snd (list_tasks db2 who status))))
   /\ (forall (now : Z) (who : string),
         complete_task db2 now who task_id = (db2, not_found task_id))
   /\ (forall (now : Z) (who : string) (t d : option string),
         update_task db2 now who task_id t d = (db2, not_found task_id))
   /\ (forall who : string,
         delete_task db2 who task_id = (db2, not_found task_id)))
  /\ (consistent db -> backend db = PostgreSQL ->
      ~ In task_id (issued db1 later)).
Proof.
  intros Hd Hs Hk.
  destruct (delete_task_succeeded _ _ _ _ _ Hd Hs) as [Hf [task [Hg [_ ->]]]].
  destruct (get_some _ _ _ Hg) as [Hid Hin]. split.
  - intros Hi db2.
    assert (Habs : ~ In task_id (map id (rows db2))).
    { apply calls_keep_absent; [exact Hi|].
      intros H. apply delete_ids in H. destruct H as [_ H]. congruence. }
    destruct (calls_fault later (delete db task)) as [Hb2 Hf2].
    fold db2 in Hb2, Hf2. cbn [delete backend fault] in Hb2, Hf2.
    rewrite Hf in Hf2.
    assert (Hg2 : session_get db2 task_id = Missing).
    { apply session_get_missing; [apply get_none, Habs|].
      rewrite Hb2. exact Hk. }
    split; [|split; [|split]].
    + intros who status H. apply Habs. eapply listed_ids_in_table, H.
    + intros now who. unfold complete_task. rewrite Hf2, Hg2. reflexivity.
    + intros now who t d. unfold update_task. rewrite Hf2, Hg2. reflexivity.
    + intros who. unfold delete_task. rewrite Hf2, Hg2. reflexivity.
  - intros [_ Hser] Hb Hi.
    destruct (issued_increasing later (delete db task) Hb) as [_ Habove].
    rewrite Forall_forall in Habove. specialize (Habove task_id Hi).
    cbn [delete serial] in Habove.
    specialize (Hser Hb). rewrite Forall_forall in Hser.
    specialize (Hser task Hin). simpl in Hser. lia.
Qed.

Lemma deleted_task_stays_deleted_witness :
  let db := mkDatabase SQLite None 0
              [mkTask 1 "u1" "wash" None false 1 1;
               mkTask 2 "u1" "iron" None false 1 1] in
  let db2 := fst (calls (fst (delete_task db "u1" 1))
                        [CallAdd 2 2 "u1" "rinse" None]) in
  Permutation (listed_ids (snd (list_tasks db2 "u1" "all"))) [2; 3] /\
  ~ In 1 (listed_ids (snd (list_tasks db2 "u1" "all"))) /\
  delete_task db2 "u1" 1 = (db2, not_found 1).
Proof.
  intros db db2.
  destruct (proj1 (deleted_task_stays_deleted
                     db (fst (delete_task db "u1" 1)) "u1" 1
                     (snd (delete_task db "u1" 1))
                     [CallAdd 2 2 "u1" "rinse" None]
                     eq_refl eq_refl (fun _ => eq_refl)))
    as [Hl [_ [_ Hdel]]].
  - simpl. intros [H|[]]. discriminate H.
  - split; [apply Permutation_refl|]. split; [apply Hl|apply Hdel].
Defined.

(** C7 as the specification words it does not hold on SQLite: the
    only task, with id 1, is deleted; the next task added gets id 1
    again, so the list shows the id and [complete_task] on it
    succeeds. *)
Lemma deleted_id_comes_back_counterexample :
  let db := fst (calls (empty_database SQLite)
                       [CallAdd 1 1 "u1" "wash" None]) in
  let db2 := fst (calls (fst (delete_task db "u1" 1))
                        [CallAdd 2 2 "u1" "rinse" None]) in
  success (snd (delete_task db "u1" 1)) = true /\
  In 1 (listed_ids (snd (list_tasks db2 "u1" "all"))) /\
  success (snd (complete_task db2 3 "u1" 1)) = true /\
  complete_task db2 3 "u1" 1 <> (db2, not_found 1).
Proof.
  intros db db2. split; [reflexivity|]. split; [left; reflexivity|].
  split; [reflexivity|].
  intros H. apply (f_equal (fun p => success (snd p))) in H.
  vm_compute in H. discriminate H.
Qed.

(** *** The ids given out *)




End StoreFacts.

(* ================================================================== *)
(** ** Further properties of the agent *)
(* ================================================================== *)

Module KeywordFacts.
Import Py PyFacts BackendMain AgentFacts.

Lemma lower_app (a b : string) : lower (a ++ b) = lower a ++ lower b.
Proof. induction a as [|c a IH]; [reflexivity|]. simpl. rewrite IH. reflexivity. Qed.

Lemma prefix_empty (s : string) : String.prefix "" s = true.
Proof. destruct s; reflexivity. Qed.

Lemma prefix_app (sub s q : string) :
  String.prefix sub s = true -> String.prefix sub (s ++ q) = true.
Proof.
  revert s. induction sub as [|a sub IH]; intros s H; [apply prefix_empty|].
  destruct s as [|c s]; [discriminate H|]. simpl in *.
  destruct (ascii_dec a c); [apply IH, H|discriminate H].
Qed.

Lemma contains_app_l (sub s q : string) :
  contains sub s = true -> contains sub (s ++ q) = true.
Proof.
  induction s as [|c s IH]; simpl; intros H.
  - apply orb_true_iff in H. destruct H as [H|H]; [|discriminate H].
    destruct sub; [|discriminate H]. destruct q; reflexivity.
  - apply orb_true_iff in H. apply orb_true_iff. destruct H as [H|H].
    + left. apply (prefix_app sub (String c s) q H).
    + right. apply IH, H.
Qed.

Lemma contains_app_r (sub p s : string) :
  contains sub s = true -> contains sub (p ++ s) = true.
Proof.
  intros H. induction p as [|c p IH]; [exact H|].
  simpl. apply orb_true_iff. right. exact IH.
Qed.

Lemma contains_inside (sub p s q : string) :
  contains sub s = true -> contains sub (p ++ s ++ q) = true.
Proof. intros H. apply contains_app_r, contains_app_l, H. Qed.

Lemma intent_add_iff (m : string) :
  intent_of m = AddTask <->
  (contains "add" (lower m) || contains "create" (lower m))%bool = true.
Proof.
  unfold intent_of. split.
  - by_keywords m; intros H; first [reflexivity|discriminate H].
  - intros ->. reflexivity.
Qed.

(** Text put before or after a message with the add intent leaves the
    intent as it is: the first branch of the chain wins whatever other
    keywords come with it. *)
Theorem add_intent_survives_context (p m q : string) :
  intent_of m = AddTask -> intent_of (p ++ m ++ q) = AddTask.
Proof.
  rewrite !intent_add_iff, !lower_app, !orb_true_iff.
  intros [H|H]; [left|right]; apply contains_inside, H.
Qed.

Lemma add_intent_survives_context_witness :
  intent_of ("please " ++ "Create a note" ++ ", then delete the done ones")
  = AddTask.
Proof.
  exact (add_intent_survives_context "please " "Create a note"
           ", then delete the done ones" eq_refl).
Defined.



(** *** Messages whose keywords are not in lower case *)

Lemma replace_absent (s old new : string) :
  contains old s = false -> replace s old new = s.
Proof.
  destruct old as [|a old].
  - destruct s; simpl; discriminate.
  - unfold replace. induction s as [|c s IH]; [reflexivity|].
    intros H. cbn [contains] in H. apply orb_false_iff in H.
    destruct H as [Hp Hc]. cbn [replace_scan]. rewrite Hp, (IH Hc).
    reflexivity.
Qed.

Lemma blank_byte_is_not_a_letter (a c : ascii) :
  (65 <= nat_of_ascii a <= 122)%nat -> blank_byte c ->
  lower_char c = c /\ a <> c.
Proof.
  intros Ha [_ Hc]. split.
  - unfold lower_char, is_upper. cbv zeta.
    destruct (Nat.leb 65 (nat_of_ascii c) && Nat.leb (nat_of_ascii c) 90)%bool
      eqn:E; [|reflexivity].
    apply andb_true_iff in E. rewrite !Nat.leb_le in E. lia.
  - intros ->. lia.
Qed.

Lemma blank_has_no_word (a : ascii) (r s : string) :
  (65 <= nat_of_ascii a <= 122)%nat -> lstrip s = "" ->
  contains (String a r) (lower s) = false.
Proof.
  intros Ha Hs. apply blank_bytes in Hs.
  induction s as [|c s IH]; [reflexivity|].
  simpl in Hs. inversion Hs as [|? ? Hc Hs']. subst.
  destruct (blank_byte_is_not_a_letter a c Ha Hc) as [Hl Hne].
  cbn [lower contains]. rewrite (IH Hs'), orb_false_r, Hl. simpl.
  destruct (ascii_dec a c); [contradiction|reflexivity].
Qed.

Lemma add_intent_has_text (m : string) :
  intent_of m = AddTask -> is_empty (strip m) = false.
Proof.
  rewrite intent_add_iff. intros H. destruct (strip m) eqn:E; [|reflexivity].
  apply strip_empty in E.
  rewrite (blank_has_no_word "a" "dd" m) in H;
    [|split; apply Nat.leb_le; reflexivity|exact E].
  rewrite (blank_has_no_word "c" "reate" m) in H;
    [|split; apply Nat.leb_le; reflexivity|exact E].
  discriminate H.
Qed.

(** When a message with the add intent holds none of "add", "create"
    and "task" in lower case (the keyword was typed with a capital),
    nothing is cut out: the description is the message itself, trimmed,
    keyword included, and the placeholder is never used. *)
Theorem capitalised_keywords_stay_in_the_description (uid : string)
        (conversation : list Dict) (m : string) :
  intent_of m = AddTask ->
  contains "add" m = false -> contains "create" m = false ->
  contains "task" m = false ->
  run_agent uid conversation m =
  ("I've added the task '" ++ strip m ++ "' to your list.",
   [mkToolCall "add_task"
      [("user_id", VStr uid); ("description", VStr (strip m))]]).
Proof.
  intros Hi Ha Hc Ht.
  pose proof (add_intent_has_text m Hi) as He.
  apply intent_add_iff in Hi. unfold run_agent. rewrite Hi.
  rewrite (replace_absent m "add" "" Ha), (replace_absent m "create" "" Hc),
    (replace_absent m "task" "" Ht), He.
  reflexivity.
Qed.

Lemma capitalised_keywords_stay_in_the_description_witness :
  run_agent "u1" [] "  ADD Task: call mum " =
  ("I've added the task 'ADD Task: call mum' to your list.",
   [mkToolCall "add_task"
      [("user_id", VStr "u1"); ("description", VStr "ADD Task: call mum")]]).
Proof.
  exact (capitalised_keywords_stay_in_the_description
           "u1" [] "  ADD Task: call mum " eq_refl eq_refl eq_refl eq_refl).
Defined.

End KeywordFacts.

(* ================================================================== *)
(** ** Further properties of the chat handler *)
(* ================================================================== *)

Module ChatFacts.
Import Py PyFacts BackendMain AgentFacts Server.

(** Whatever the tool functions are, each one [chat] awaits is given
    the user id of the request path as its first argument. *)
Theorem tools_are_given_the_callers_id (tools : Tools) (env : Env)
        (session : Session) (uid message : string) :
  Forall (fun inv : Invocation => hd_error (snd inv) = Some (VStr uid))
         (invoked (chat_with tools env session uid message)).
Proof.
  unfold invoked. rewrite chat_awaited.
  destruct (first_raised env); [constructor|].
  unfold run_agent.
  by_keywords message; cbn [snd execute_tools execute_tool name arguments];
    try (constructor; fail);
    simpl;
    match goal with
    | |- context [match ?r with Return _ => _ | Raise _ => _ end] => destruct r
    end; repeat constructor.
Qed.

(** When no call on the session raises, a message with no keyword is
    answered by echoing it, with no tool call and no tool function
    awaited, so that not even tool functions that always raise can make
    the call fail; both turns are recorded. *)
Theorem unknown_message_is_echoed (tools : Tools) (env : Env)
        (session : Session) (uid message : string) :
  first_raised env = None ->
  intent_of message = Unknown ->
  let text := "I received your message: '" ++ message
              ++ "'. How can I help you with your tasks?" in
  invoked (chat_with tools env session uid message) = [] /\
  outcome (chat_with tools env session uid message) =
  Replied (mkChatResponse (uuid4 env) text []) /\
  map (fun m => (role m, content m))
      (session_after (chat_with tools env session uid message)) =
  (map (fun m => (role m, content m)) session
     ++ [("user", message); ("assistant", text)])%list.
Proof.
  intros He Hi text.
  assert (Hr : run_agent uid [] message = (text, [])).
  { unfold intent_of in Hi. unfold run_agent.
    by_keywords message; first [discriminate Hi|reflexivity]. }
  unfold invoked.
  rewrite chat_awaited, chat_outcome, chat_session_after, He, Hr.
  split; [reflexivity|]. split; [reflexivity|].
  cbv zeta. unfold add_commit. rewrite !map_app, <- app_assoc. reflexivity.
Qed.

Lemma unknown_message_is_echoed_witness :
  let raising :=
    mkTools (fun _ _ => Raise "down") (fun _ => Raise "down")
            (fun _ _ _ => Raise "down") (fun _ _ => Raise "down")
            (fun _ _ => Raise "down") in
  outcome (chat_with raising (mkEnv "c1" 10 11 (fun _ => None)) [] "u1"
                     "good morning") =
  Replied (mkChatResponse "c1"
             "I received your message: 'good morning'. How can I help you with your tasks?"
             []).
Proof.
  intros raising.
  exact (proj1 (proj2 (unknown_message_is_echoed
                         raising (mkEnv "c1" 10 11 (fun _ => None)) [] "u1"
                         "good morning" eq_refl eq_refl))).
Defined.

(** The reply and the tool functions awaited are the same whatever the
    [message] table holds: the history [chat] loads for the agent is
    never read. *)
Theorem reply_does_not_depend_on_history (tools : Tools) (env : Env)
        (s1 s2 : Session) (uid message : string) :
  outcome (chat_with tools env s1 uid message) =
  outcome (chat_with tools env s2 uid message) /\
  invoked (chat_with tools env s1 uid message) =
  invoked (chat_with tools env s2 uid message).
Proof. unfold invoked. rewrite !chat_outcome, !chat_awaited. split; reflexivity. Qed.

(** *** The history query *)

Lemma insert_by_timestamp_perm (m : Message) (l : list Message) :
  Permutation (insert_by_timestamp m l) (m :: l).
Proof.
  induction l as [|x l IH]; [apply Permutation_refl|].
  simpl. destruct (timestamp m <? timestamp x); [apply Permutation_refl|].
  eapply perm_trans; [apply perm_skip, IH|apply perm_swap].
Qed.

Lemma insert_by_timestamp_sorted (m : Message) (l : list Message) :
  Sorted earlier l -> Sorted earlier (insert_by_timestamp m l).
Proof.
  induction l as [|x l IH]; intros Hs.
  - repeat constructor.
  - simpl. destruct (timestamp m <? timestamp x) eqn:E.
    + constructor; [exact Hs|]. constructor. unfold earlier.
      apply Z.ltb_lt in E. lia.
    + apply Z.ltb_ge in E. inversion Hs as [|? ? Hl Hh]. subst.
      constructor; [apply IH, Hl|].
      destruct l as [|y l]; simpl.
      * constructor. exact E.
      * destruct (timestamp m <? timestamp y).
        -- constructor. exact E.
        -- inversion Hh. constructor. assumption.
Qed.

Lemma fold_insert (l acc : list Message) :
  Sorted earlier acc ->
  Sorted earlier
    (fold_left (fun sorted m => insert_by_timestamp m sorted) l acc) /\
  Permutation
    (fold_left (fun sorted m => insert_by_timestamp m sorted) l acc)
    (l ++ acc).
Proof.
  revert acc. induction l as [|x l IH]; intros acc Hs.
  - split; [exact Hs|apply Permutation_refl].
  - simpl. destruct (IH _ (insert_by_timestamp_sorted x acc Hs)) as [H1 H2].
    split; [exact H1|].
    eapply perm_trans; [exact H2|].
    eapply perm_trans;
      [apply Permutation_app_head, insert_by_timestamp_perm|].
    apply Permutation_sym, Permutation_middle.
Qed.

(** The history loaded for a user holds exactly the rows of that user,
    each as often as the table does, rows of other users being left
    out, and is ordered by timestamp. *)
Theorem history_is_the_users_rows_in_time_order (rows : Session)
        (uid : string) :
  Permutation (select_history rows uid)
              (filter (fun m => String.eqb (user_id m) uid) rows)
  /\ StronglySorted earlier (select_history rows uid)
  /\ Forall (fun m => user_id m = uid /\ In m rows) (select_history rows uid).
Proof.
  unfold select_history.
  destruct (fold_insert (filter (fun m => String.eqb (user_id m) uid) rows) [])
    as [Hs Hp]; [constructor|].
  rewrite app_nil_r in Hp. split; [exact Hp|]. split.
  - apply Sorted_StronglySorted; [|exact Hs].
    intros a b c. unfold earlier. lia.
  - apply Forall_forall. intros m Hin.
    apply (Permutation_in _ Hp) in Hin. apply filter_In in Hin.
    destruct Hin as [Hin Hu]. apply String.eqb_eq in Hu. split; assumption.
Qed.

(** *** Requests in sequence *)

Lemma serve_cons (tools : Tools) (session : Session) (rq : Request)
      (rest : list Request) :
  fst (serve tools session (rq :: rest)) =
  fst (serve tools
         (session_after
            (chat_with tools (env rq) session (caller rq) (message rq)))
         rest).
Proof. simpl. destruct (serve tools _ rest). reflexivity. Qed.

(** What one request adds to the table. *)
Lemma chat_appends (tools : Tools) (env : Env) (session : Session)
      (uid message : string) :
  exists turns : list Message,
    session_after (chat_with tools env session uid message) =
    (session ++ turns)%list /\
    map (fun m => (conversation_id m, user_id m, role m, content m)) turns =
    match first_raised env with
    | Some (ExecHistory, _) | Some (CommitUser, _) => []
    | Some (RefreshUser, _) | Some (CommitAssistant, _) =>
        [(uuid4 env, uid, "user", message)]
    | None =>
        [(uuid4 env, uid, "user", message);
         (uuid4 env, uid, "assistant", fst (run_agent uid [] message))]
    end.
Proof.
  rewrite chat_session_after. cbv zeta. unfold add_commit.
  destruct (first_raised env) as [[[] e]|].
  - exists []. split; [symmetry; apply app_nil_r|reflexivity].
  - exists []. split; [symmetry; apply app_nil_r|reflexivity].
  - eexists. split; reflexivity.
  - eexists. split; reflexivity.
  - eexists. rewrite <- app_assoc. split; reflexivity.
Qed.

(** The [message] table only grows: after any sequence of requests,
    with any tool functions and whatever calls on the session raise,
    it is the table before followed, for each request in order, by the
    turns the request committed: none, the user turn alone, or the user
    turn and the assistant turn, under the caller and the conversation
    id of the request; both, when no call on the session raised during
    the request. *)
Theorem turns_are_appended_in_request_order (tools : Tools)
        (session : Session) (requests : list Request) :
  exists turns : list Message,
    fst (serve tools session requests) = (session ++ turns)%list /\
    map (fun m => (conversation_id m, user_id m, role m, content m)) turns =
    flat_map
      (fun rq =>
         match first_raised (env rq) with
         | Some (ExecHistory, _) | Some (CommitUser, _) => []
         | Some (RefreshUser, _) | Some (CommitAssistant, _) =>
             [(uuid4 (env rq), caller rq, "user", message rq)]
         | None =>
             [(uuid4 (env rq), caller rq, "user", message rq);
              (uuid4 (env rq), caller rq, "assistant",
               fst (run_agent (caller rq) [] (message rq)))]
         end)
      requests.
Proof.
  revert session. induction requests as [|rq rest IH]; intros session.
  - exists []. split; [symmetry; apply app_nil_r|reflexivity].
  - rewrite serve_cons.
    destruct (chat_appends tools (env rq) session (caller rq) (message rq))
      as [t1 [H1 M1]].
    rewrite H1. destruct (IH (session ++ t1)%list) as [t2 [H2 M2]].
    exists (t1 ++ t2)%list. split.
    + rewrite H2. symmetry. apply app_assoc.
    + rewrite map_app, M1, M2. reflexivity.
Qed.

End ChatFacts.

(* ================================================================== *)
(** ** Further properties of the task store *)
(* ================================================================== *)

Module TableFacts.
Import Py McpTools Calls StoreFacts.

(** *** Lookup after each change of the table *)

Lemma get_insert_old (db : Database) (task t : Task) (k : Z) :
  get db k = Some t -> get (insert db task) k = Some t.
Proof.
  unfold get, insert. simpl. induction (rows db) as [|x l IH]; [discriminate|].
  simpl. destruct (id x =? k); [intros H; exact H|exact IH].
Qed.

Lemma get_insert_new (db : Database) (task : Task) :
  get db (id task) = None -> get (insert db task) (id task) = Some task.
Proof.
  unfold get, insert. simpl. induction (rows db) as [|x l IH].
  - intros _. simpl. rewrite Z.eqb_refl. reflexivity.
  - simpl. destruct (id x =? id task); [discriminate|exact IH].
Qed.

Lemma get_delete_other (db : Database) (task : Task) (k : Z) :
  k <> id task -> get (delete db task) k = get db k.
Proof.
  intros Hk. unfold get, delete. simpl.
  induction (rows db) as [|x l IH]; [reflexivity|].
  simpl. destruct (id x =? id task) eqn:E; simpl.
  - apply Z.eqb_eq in E.
    assert (H : (id x =? k) = false) by (apply Z.eqb_neq; congruence).
    rewrite H. exact IH.
  - destruct (id x =? k); [reflexivity|exact IH].
Qed.

(** *** What every call answers *)


(** *** Listings *)

Lemma select_tasks_spec (db : Database) (uid status : string) (t : Task) :
  In t (select_tasks db uid status) <->
  In t (rows db) /\ user_id t = uid /\
  (status = "pending" -> completed t = false) /\
  (status = "completed" -> completed t = true).
Proof.
  unfold select_tasks.
  destruct (String.eqb status "pending") eqn:Ep;
    [|destruct (String.eqb status "completed") eqn:Ec];
    rewrite ?filter_In, String.eqb_eq.
  - apply String.eqb_eq in Ep. subst status. rewrite eqb_true_iff. split.
    + intros [[Hin Hu] Hc]. split; [exact Hin|]. split; [exact Hu|].
      split; [intros _; exact Hc|intros H; discriminate H].
    + intros [Hin [Hu [Hc _]]]. repeat split; auto.
  - apply String.eqb_eq in Ec. subst status. rewrite eqb_true_iff. split.
    + intros [[Hin Hu] Hc]. split; [exact Hin|]. split; [exact Hu|].
      split; [intros H; discriminate H|intros _; exact Hc].
    + intros [Hin [Hu [_ Hc]]]. repeat split; auto.
  - apply String.eqb_neq in Ep, Ec. split.
    + intros [Hin Hu]. repeat split; try assumption; intros; contradiction.
    + intros [Hin [Hu _]]. split; assumption.
Qed.

(** On a reachable store [list_tasks] changes nothing, and every id it
    lists is the id of a stored task that belongs to the user asked for
    and has the completion state of the filter; the count it reports is
    the number of tasks listed. *)
Theorem list_tasks_shows_only_own_matching_tasks (db : Database)
        (uid status : string) :
  fault db = None ->
  fst (list_tasks db uid status) = db /\
  (forall k : Z,
      In k (listed_ids (snd (list_tasks db uid status))) ->
      exists t : Task,
        In t (rows db) /\ id t = k /\ user_id t = uid /\
        (status = "pending" -> completed t = false) /\
        (status = "completed" -> completed t = true)) /\
  (forall d : Dict,
      data (snd (list_tasks db uid status)) = Some d ->
      dict_get d "total_count" VNone =
      VInt (Z.of_nat (List.length (listed_ids (snd (list_tasks db uid status)))))).
Proof.
  intros Hf. split; [|split].
  - unfold list_tasks. rewrite Hf. destruct (bind db uid); reflexivity.
  - intros k.
    destruct (listed_ids_cases db uid status) as [->|[_ [_ ->]]]; [intros []|].
    rewrite in_map_iff.
    intros [t [Hk Hin]]. exists t. apply select_tasks_spec in Hin.
    destruct Hin as [Hin [Hu [Hp Hc]]]. repeat split; assumption.
  - destruct (bind db uid) as [e|] eqn:Hb.
    + unfold list_tasks. rewrite Hf, Hb. discriminate.
    + rewrite (listed_ids_of_list_tasks db uid status Hf Hb).
      unfold list_tasks. rewrite Hf, Hb. simpl. intros d Hd.
      injection Hd as <-. simpl. rewrite !length_map. reflexivity.
Qed.

Lemma list_tasks_shows_only_own_matching_tasks_witness :
  let db := mkDatabase SQLite None 0
              [mkTask 1 "alice" "wash" None false 3 3;
               mkTask 2 "bob" "cook" None true 4 4;
               mkTask 3 "alice" "iron" None true 5 5] in
  listed_ids (snd (list_tasks db "alice" "completed")) = [3] /\
  exists t : Task,
    In t (rows db) /\ id t = 3 /\ user_id t = "alice" /\ completed t = true.
Proof.
  intros db. split; [reflexivity|].
  destruct (proj1 (proj2 (list_tasks_shows_only_own_matching_tasks
                            db "alice" "completed" eq_refl))
                  3 (or_introl eq_refl))
    as [t [Hin [Hid [Hu [_ Hc]]]]].
  exists t. split; [exact Hin|]. split; [exact Hid|].
  split; [exact Hu|exact (Hc eq_refl)].
Defined.

Lemma filter_split {A : Type} (f : A -> bool) (l : list A) :
  Permutation l (filter f l ++ filter (fun x => negb (f x)) l).
Proof.
  induction l as [|x l IH]; [constructor|].
  simpl. destruct (f x); simpl.
  - apply perm_skip, IH.
  - apply Permutation_cons_app, IH.
Qed.

(** The filters split the tasks of a user: the "all" listing is the
    "pending" listing and the "completed" listing put together, no task
    being in both; and any other filter text lists the same as "all". *)
Theorem pending_and_completed_split_all (db : Database) (uid : string) :
  Permutation (listed_ids (snd (list_tasks db uid "all")))
              (listed_ids (snd (list_tasks db uid "pending"))
               ++ listed_ids (snd (list_tasks db uid "completed")))
  /\ (forall t : Task,
        In t (select_tasks db uid "pending") ->
        ~ In t (select_tasks db uid "completed"))
  /\ (forall status : string,
        status <> "pending" -> status <> "completed" ->
        listed_ids (snd (list_tasks db uid status)) =
        listed_ids (snd (list_tasks db uid "all"))).
Proof.
  split; [|split].
  - destruct (listed_ids_failing db uid) as [H|[Hf Hb]].
    + rewrite !H. constructor.
    + rewrite !(listed_ids_of_list_tasks db uid _ Hf Hb), <- map_app.
      apply Permutation_map. unfold select_tasks. simpl.
      eapply perm_trans; [apply (filter_split (fun t => Bool.eqb (completed t) false))|].
      apply Permutation_app_head.
      erewrite filter_ext; [apply Permutation_refl|].
      intros t. simpl. destruct (completed t); reflexivity.
  - intros t Hp Hc. apply select_tasks_spec in Hp, Hc.
    destruct Hp as [_ [_ [Hp _]]]. destruct Hc as [_ [_ [_ Hc]]].
    rewrite (Hp eq_refl) in Hc. discriminate (Hc eq_refl).
  - intros status Hp Hc. destruct (listed_ids_failing db uid) as [H|[Hf Hb]].
    + rewrite !H. reflexivity.
    + rewrite !(listed_ids_of_list_tasks db uid _ Hf Hb). unfold select_tasks.
      apply String.eqb_neq in Hp, Hc. rewrite Hp, Hc. reflexivity.
Qed.

Lemma pending_and_completed_split_all_witness :
  let db := mkDatabase SQLite None 0
              [mkTask 1 "alice" "wash" None false 3 3;
               mkTask 3 "alice" "iron" None true 5 5] in
  listed_ids (snd (list_tasks db "alice" "done")) =
  listed_ids (snd (list_tasks db "alice" "all")).
Proof.
  intros db.
  apply (proj2 (proj2 (pending_and_completed_split_all db "alice")) "done");
    intros H; discriminate H.
Defined.

(** *** Who can change what *)

Lemma call_by_another_user (db : Database) (c : Call) (k : Z) (t : Task) :
  get db k = Some t -> caller_of c <> user_id t ->
  get (fst (call db c)) k = Some t.
Proof.
  intros Hg Hc.
  destruct (call_effect db c)
    as [[-> _]|[[_ [_ [_ [task [_ [_ ->]]]]]]
       |[[_ [_ [_ [task [task' [Ht [Hu [Hid [_ [_ [_ ->]]]]]]]]]]]
        |[_ [_ [_ [task [Ht [Hu ->]]]]]]]]].
  - exact Hg.
  - apply get_insert_old, Hg.
  - destruct (get_some _ _ _ Ht) as [Hk _].
    rewrite get_merge_other; [exact Hg|]. intros ->.
    rewrite Hid, Hk, Ht in Hg. congruence.
  - destruct (get_some _ _ _ Ht) as [Hk _].
    rewrite get_delete_other; [exact Hg|]. intros ->.
    rewrite Hk, Ht in Hg. congruence.
Qed.

(** No sequence of calls made under other user ids changes or removes
    a task: it is found afterwards under its id exactly as it was,
    update time included. *)
Theorem other_users_cannot_touch_a_task (cs : list Call) (db : Database)
        (k : Z) (t : Task) :
  get db k = Some t ->
  Forall (fun c => caller_of c <> user_id t) cs ->
  get (fst (calls db cs)) k = Some t.
Proof.
  revert db. induction cs as [|c cs IH]; intros db Hg Hall; [exact Hg|].
  inversion Hall as [|? ? Hc Hcs]. subst.
  rewrite calls_cons. apply IH; [|exact Hcs].
  apply call_by_another_user; assumption.
Qed.

Lemma other_users_cannot_touch_a_task_witness :
  let db := mkDatabase SQLite None 0 [mkTask 1 "alice" "wash" None false 3 3] in
  get (fst (calls db [CallComplete 5 "bob" 1;
                      CallUpdate 6 "bob" 1 (Some "mine") None;
                      CallDelete "bob" 1;
                      CallAdd 7 7 "bob" "cook" None]))
      1
  = Some (mkTask 1 "alice" "wash" None false 3 3).
Proof.
  intros db.
  apply (other_users_cannot_touch_a_task _ db 1
           (mkTask 1 "alice" "wash" None false 3 3) eq_refl).
  repeat constructor; simpl; intros H; discriminate H.
Defined.

Lemma call_keeps_identity (db : Database) (c : Call) (k : Z) (t : Task) :
  get db k = Some t -> deletes k c = false ->
  exists t' : Task,
    get (fst (call db c)) k = Some t' /\
    user_id t' = user_id t /\ created_at t' = created_at t /\
    (completed t = true -> completed t' = true).
Proof.
  intros Hg Hd.
  assert (Hsame : forall db' : Database,
             get db' k = Some t ->
             exists t' : Task,
               get db' k = Some t' /\ user_id t' = user_id t /\
               created_at t' = created_at t /\
               (completed t = true -> completed t' = true)).
  { intros db' H. exists t. repeat split; [exact H|intros E; exact E]. }
  destruct (call_effect db c)
    as [[-> _]|[[_ [_ [_ [task [_ [_ ->]]]]]]
       |[[_ [_ [_ [task [task' [Ht [_ [Hid [Hu [Hc [Hm ->]]]]]]]]]]]
        |[_ [Hdel [_ [task [Ht [_ ->]]]]]]]]].
  - apply Hsame, Hg.
  - apply Hsame, get_insert_old, Hg.
  - destruct (get_some _ _ _ Ht) as [Hk _].
    destruct (Z.eq_dec (id_of c) k) as [E|E].
    + rewrite E in *. rewrite Hg in Ht. injection Ht as <-.
      exists task'. split; [apply (get_merge_at db t); [exact Hg|congruence]|].
      repeat split; assumption.
    + apply Hsame. rewrite get_merge_other by congruence. exact Hg.
  - destruct (get_some _ _ _ Ht) as [Hk _].
    apply Hsame. rewrite get_delete_other; [exact Hg|].
    intros ->. rewrite Hk, Hdel in Hd. discriminate Hd.
Qed.

(** Through any sequence of calls in which nobody deletes it, a task
    stays in the table under its id with the owner and the creation
    time it had, and once completed it stays completed: no method
    assigns [user_id] or [created_at] or sets [completed] back. *)
Theorem owner_and_creation_time_never_change (cs : list Call) (db : Database)
        (k : Z) (t : Task) :
  get db k = Some t ->
  Forall (fun c => deletes k c = false) cs ->
  exists t' : Task,
    get (fst (calls db cs)) k = Some t' /\
    user_id t' = user_id t /\ created_at t' = created_at t /\
    (completed t = true -> completed t' = true).
Proof.
  revert db t. induction cs as [|c cs IH]; intros db t Hg Hall.
  - exists t. repeat split; [exact Hg|intros H; exact H].
  - inversion Hall as [|? ? Hc Hcs]. subst. rewrite calls_cons.
    destruct (call_keeps_identity db c k t Hg Hc) as [t1 [Hg1 [Hu1 [Hc1 Hd1]]]].
    destruct (IH _ t1 Hg1 Hcs) as [t2 [Hg2 [Hu2 [Hc2 Hd2]]]].
    exists t2. split; [exact Hg2|]. split; [congruence|].
    split; [congruence|]. intros H. apply Hd2, Hd1, H.
Qed.

Lemma owner_and_creation_time_never_change_witness :
  let db := mkDatabase SQLite None 0 [mkTask 1 "alice" "wash" None false 3 3] in
  exists t' : Task,
    get (fst (calls db [CallComplete 5 "alice" 1;
                        CallUpdate 6 "alice" 1 (Some "rinse") (Some "twice");
                        CallDelete "alice" 2]))
        1 = Some t' /\
    user_id t' = "alice" /\ created_at t' = 3.
Proof.
  intros db.
  destruct (owner_and_creation_time_never_change
              [CallComplete 5 "alice" 1;
               CallUpdate 6 "alice" 1 (Some "rinse") (Some "twice");
               CallDelete "alice" 2]
              db 1 (mkTask 1 "alice" "wash" None false 3 3) eq_refl)
    as [t' [Hg [Hu [Hc _]]]].
  - repeat constructor.
  - exists t'. repeat split; assumption.
Defined.

(** *** Adding, then using the id *)

Lemma next_id_is_free (db : Database) :
  consistent db -> get db (next_id db) = None.
Proof.
  intros Hc. apply get_none. intros Hin. apply in_map_iff in Hin.
  destruct Hin as [t [Ht Hin]]. pose proof (next_id_fresh db Hc) as Hf.
  rewrite Forall_forall in Hf. specialize (Hf t Hin). simpl in Hf. lia.
Qed.

(** In a table reached through the operations, the id a successful
    [add_task] reports finds the task just added, with the fields as
    given and [completed] false; every task stored before is found as
    before; and with that id the adder can complete the task while any
    other user is refused as unauthorized. *)
Theorem added_task_is_found_by_its_id (db : Database) (created updated : Z)
        (uid title : string) (descr : option string) (n : Z) :
  consistent db ->
  added_id (CallAdd created updated uid title descr)
           (snd (add_task db created updated uid title descr)) = Some n ->
  let db' := fst (add_task db created updated uid title descr) in
  get db' n = Some (mkTask n uid title descr false created updated)
  /\ (forall (k : Z) (t : Task), get db k = Some t -> get db' k = Some t)
  /\ (forall now : Z, success (snd (complete_task db' now uid n)) = true)
  /\ (forall (now : Z) (other : string),
        other <> uid -> complete_task db' now other n = (db', unauthorized)).
Proof.
  intros Hc Ha db'.
  assert (Hb : bind_all db [Some uid; Some title; descr] = None).
  { revert Ha. unfold add_task. destruct (fault db); [discriminate|].
    destruct (bind_all db [Some uid; Some title; descr]);
      [discriminate|reflexivity]. }
  apply (added_id_is_next db (CallAdd created updated uid title descr)) in Ha.
  destruct Ha as [_ [Hf ->]].
  assert (Hdb : db' = insert db (mkTask (next_id db) uid title descr false
                                        created updated))
    by (unfold db', add_task; rewrite Hf, Hb; reflexivity).
  assert (Hg : get db' (next_id db) =
               Some (mkTask (next_id db) uid title descr false created updated)).
  { rewrite Hdb.
    apply (get_insert_new db (mkTask (next_id db) uid title descr false
                                     created updated)).
    apply next_id_is_free, Hc. }
  assert (Hf' : fault db' = None) by (rewrite Hdb; exact Hf).
  split; [exact Hg|]. split; [|split].
  - intros k t Hk. rewrite Hdb. apply get_insert_old, Hk.
  - intros now.
    rewrite (complete_task_owned db' now uid (next_id db) _ Hf' Hg eq_refl).
    reflexivity.
  - intros now other Ho. unfold complete_task.
    rewrite Hf', (session_get_found _ _ _ Hg). simpl.
    assert (E : String.eqb uid other = false)
      by (apply String.eqb_neq; congruence).
    rewrite E. reflexivity.
Qed.

Lemma added_task_is_found_by_its_id_witness :
  let db := mkDatabase PostgreSQL None 4 [mkTask 4 "alice" "wash" None false 3 3] in
  get (fst (add_task db 8 8 "bob" "cook" (Some "rice"))) 5 =
  Some (mkTask 5 "bob" "cook" (Some "rice") false 8 8) /\
  complete_task (fst (add_task db 8 8 "bob" "cook" (Some "rice"))) 9 "alice" 5 =
  (fst (add_task db 8 8 "bob" "cook" (Some "rice")), unauthorized).
Proof.
  intros db.
  assert (Hc : consistent db).
  { split; simpl.
    - constructor; [intros []|constructor].
    - intros _. constructor; [simpl; lia|constructor]. }
  destruct (added_task_is_found_by_its_id db 8 8 "bob" "cook" (Some "rice") 5
              Hc eq_refl) as [Hg [_ [_ Hu]]].
  split; [exact Hg|]. apply Hu. intros H. discriminate H.
Defined.

(** *** Deleting *)

Lemma filter_out_none (l : list Task) (k : Z) :
  ~ In k (map id l) -> filter (fun x => negb (id x =? k)) l = l.
Proof.
  induction l as [|y l IH]; [reflexivity|].
  simpl. intros Hk. destruct (id y =? k) eqn:Ey.
  - exfalso. apply Hk. left. apply Z.eqb_eq, Ey.
  - simpl. f_equal. apply IH. intros H. apply Hk. right. exact H.
Qed.

Lemma filter_out_one (l : list Task) (t : Task) :
  NoDup (map id l) -> In t l ->
  S (List.length (filter (fun x => negb (id x =? id t)) l)) = List.length l.
Proof.
  induction l as [|x l IH]; [intros _ []|].
  simpl. intros Hn Hin. inversion Hn as [|? ? Hx Hl]. subst.
  destruct (id x =? id t) eqn:E; simpl.
  - apply Z.eqb_eq in E. rewrite E in Hx.
    rewrite (filter_out_none l (id t) Hx). reflexivity.
  - f_equal. apply IH; [exact Hl|].
    destruct Hin as [->|Hin]; [|exact Hin].
    rewrite Z.eqb_refl in E. discriminate E.
Qed.

(** In a table reached through the operations a successful
    [delete_task] removes exactly one row, and every task with another
    id is found afterwards as before. *)
Theorem delete_task_removes_exactly_one_task (db db' : Database)
        (uid : string) (task_id : Z) (r : Response) :
  consistent db ->
  delete_task db uid task_id = (db', r) -> success r = true ->
  S (List.length (rows db')) = List.length (rows db) /\
  (forall k : Z, k <> task_id -> get db' k = get db k).
Proof.
  intros [Hn _] Hd Hs.
  destruct (delete_task_succeeded _ _ _ _ _ Hd Hs) as [_ [task [Hg [_ ->]]]].
  destruct (get_some _ _ _ Hg) as [Hid Hin]. split.
  - unfold delete. simpl. apply filter_out_one; assumption.
  - intros k Hk. apply get_delete_other. congruence.
Qed.

Lemma delete_task_removes_exactly_one_task_witness :
  let db := mkDatabase SQLite None 0
              [mkTask 1 "alice" "wash" None false 3 3;
               mkTask 2 "bob" "cook" None true 4 4] in
  S (List.length (rows (fst (delete_task db "alice" 1)))) = 2%nat /\
  get (fst (delete_task db "alice" 1)) 2 = Some (mkTask 2 "bob" "cook" None true 4 4).
Proof.
  intros db.
  assert (Hc : consistent db).
  { split; simpl.
    - constructor; [simpl; intros [H|[]]; discriminate H|].
      constructor; [intros []|constructor].
    - intros H. discriminate H. }
  destruct (delete_task_removes_exactly_one_task
              db (fst (delete_task db "alice" 1)) "alice" 1
              (snd (delete_task db "alice" 1)) Hc eq_refl eq_refl)
    as [Hl Hk].
  split; [exact Hl|]. apply (Hk 2). intros H. discriminate H.
Defined.

(** *** Listings after a change *)

(** The query of [list_tasks] has no [ORDER BY], so what follows
    compares listings as collections of ids, never by position. *)

Lemma bind_same_engine (db db' : Database) (s : string) :
  backend db' = backend db -> bind db' s = bind db s.
Proof. intros H. unfold bind. rewrite H. reflexivity. Qed.

(** Two states of one store answer a listing alike: both refuse it, or
    both list the rows the query selects. *)
Lemma listed_ids_both (db db' : Database) (who status : string) :
  backend db' = backend db -> fault db' = fault db ->
  (listed_ids (snd (list_tasks db' who status)) = [] /\
   listed_ids (snd (list_tasks db who status)) = [])
  \/ (listed_ids (snd (list_tasks db' who status)) =
      map id (select_tasks db' who status) /\
      listed_ids (snd (list_tasks db who status)) =
      map id (select_tasks db who status)).
Proof.
  intros Hb Hf.
  destruct (listed_ids_cases db who status) as [E|[Hf0 [Hb0 E]]].
  - destruct (listed_ids_cases db' who status) as [E'|[Hf1 [Hb1 E']]];
      [left; split; assumption|].
    right. split; [exact E'|]. apply listed_ids_of_list_tasks.
    + rewrite <- Hf. exact Hf1.
    + rewrite <- (bind_same_engine db db' who Hb). exact Hb1.
  - right. split; [|exact E]. apply listed_ids_of_list_tasks.
    + rewrite Hf. exact Hf0.
    + rewrite (bind_same_engine db db' who Hb). exact Hb0.
Qed.

Lemma add_task_succeeded (db db' : Database) (created updated : Z)
      (uid title : string) (descr : option string) (r : Response) :
  add_task db created updated uid title descr = (db', r) ->
  success r = true ->
  fault db = None /\ bind db uid = None /\
  bind_all db [Some uid; Some title; descr] = None.
Proof.
  unfold add_task. intros H Hs.
  destruct (fault db) as [e|]; [injection H as <- <-; discriminate Hs|].
  destruct (bind_all db [Some uid; Some title; descr]) as [e|] eqn:Hb;
    [injection H as <- <-; discriminate Hs|].
  split; [reflexivity|]. split; [|reflexivity].
  cbn [bind_all] in Hb. destruct (bind db uid); [discriminate Hb|reflexivity].
Qed.

(** A task that [add_task] has added is one more among the adder's
    pending tasks, under the id the call reports; the adder's completed
    tasks and every listing of every other user hold the same ids as
    before. *)
Theorem added_task_shows_only_in_the_adders_pending_list (db db' : Database)
        (created updated : Z) (uid title : string) (descr : option string)
        (r : Response) :
  add_task db created updated uid title descr = (db', r) ->
  success r = true ->
  added_id (CallAdd created updated uid title descr) r = Some (next_id db)
  /\ Permutation (listed_ids (snd (list_tasks db' uid "pending")))
                 (next_id db :: listed_ids (snd (list_tasks db uid "pending")))
  /\ Permutation (listed_ids (snd (list_tasks db' uid "completed")))
                 (listed_ids (snd (list_tasks db uid "completed")))
  /\ (forall other status : string,
        other <> uid ->
        Permutation (listed_ids (snd (list_tasks db' other status)))
                    (listed_ids (snd (list_tasks db other status)))).
Proof.
  intros H Hs.
  destruct (add_task_succeeded _ _ _ _ _ _ _ _ H Hs) as [Hf [Hb Hba]].
  rewrite (add_task_bound db created updated uid title descr Hf Hba) in H.
  injection H as Hdb Hr. symmetry in Hdb.
  set (task := mkTask (next_id db) uid title descr false created updated) in *.
  assert (Hrows : rows db' = (rows db ++ [task])%list)
    by (rewrite Hdb; reflexivity).
  assert (Hf' : fault db' = None) by (rewrite Hdb; exact Hf).
  assert (Hb' : bind db' uid = None)
    by (rewrite (bind_same_engine db db' uid), Hb; [|rewrite Hdb]; reflexivity).
  split; [|split; [|split]].
  - rewrite <- Hr. reflexivity.
  - rewrite (listed_ids_of_list_tasks db' uid _ Hf' Hb'),
      (listed_ids_of_list_tasks db uid _ Hf Hb).
    unfold select_tasks. rewrite Hrows. simpl. rewrite !filter_app, map_app.
    simpl. rewrite String.eqb_refl. simpl.
    apply Permutation_sym, Permutation_cons_append.
  - rewrite (listed_ids_of_list_tasks db' uid _ Hf' Hb'),
      (listed_ids_of_list_tasks db uid _ Hf Hb).
    unfold select_tasks. rewrite Hrows. simpl. rewrite !filter_app.
    simpl. rewrite String.eqb_refl. simpl. rewrite app_nil_r.
    apply Permutation_refl.
  - intros other status Ho.
    destruct (listed_ids_both db db' other status) as [[-> ->]|[-> ->]];
      [rewrite Hdb; reflexivity..|constructor|].
    assert (E : String.eqb uid other = false)
      by (apply String.eqb_neq; congruence).
    unfold select_tasks. rewrite Hrows, !filter_app. simpl. rewrite E.
    destruct (String.eqb status "pending");
      [|destruct (String.eqb status "completed")];
      simpl; rewrite ?app_nil_r; apply Permutation_refl.
Qed.

Lemma added_task_shows_only_in_the_adders_pending_list_witness :
  let db := mkDatabase SQLite None 0 [mkTask 1 "alice" "wash" None true 3 3] in
  Permutation
    (listed_ids (snd (list_tasks (fst (add_task db 8 9 "alice" "cook" None))
                                 "alice" "pending")))
    [2].
Proof.
  intros db.
  exact (proj1 (proj2 (added_task_shows_only_in_the_adders_pending_list
                         db (fst (add_task db 8 9 "alice" "cook" None))
                         8 9 "alice" "cook" None
                         (snd (add_task db 8 9 "alice" "cook" None))
                         eq_refl eq_refl))).
Defined.

Lemma only_row_with_its_id (l : list Task) (x t : Task) :
  NoDup (map id l) -> In x l -> In t l -> id x = id t -> x = t.
Proof.
  induction l as [|y l IH]; [intros _ []|].
  simpl. intros Hn Hx Ht E. inversion Hn as [|? ? Hy Hl]. subst.
  destruct Hx as [->|Hx], Ht as [->|Ht].
  - reflexivity.
  - exfalso. apply Hy. rewrite E. apply in_map, Ht.
  - exfalso. apply Hy. rewrite <- E. apply in_map, Hx.
  - apply IH; assumption.
Qed.

Lemma filter_map_same (f : Task -> bool) (g : Task -> Task) (l : list Task) :
  (forall x : Task, In x l -> f (g x) = f x) ->
  filter f (map g l) = map g (filter f l).
Proof.
  induction l as [|x l IH]; [reflexivity|].
  intros H. simpl. rewrite (H x (or_introl eq_refl)).
  rewrite IH by (intros y Hy; apply H; right; exact Hy).
  destruct (f x); reflexivity.
Qed.

(** Writing back a row that keeps its id, its owner and, where the
    filter looks at it, its completion state leaves every listing with
    the ids it had. *)
Lemma merge_listing (db : Database) (t t' : Task) (who status : string) :
  NoDup (map id (rows db)) -> In t (rows db) ->
  id t' = id t -> user_id t' = user_id t ->
  (completed t' = completed t \/
   (status <> "pending" /\ status <> "completed")) ->
  Permutation (map id (select_tasks (merge db t') who status))
              (map id (select_tasks db who status)).
Proof.
  intros Hn Hin Hid Hu Hc.
  match goal with |- Permutation ?a ?b => assert (E : a = b) end;
    [|rewrite E; apply Permutation_refl].
  unfold select_tasks, merge. simpl.
  set (g := fun x : Task => if id x =? id t' then t' else x).
  assert (Hg : forall x, In x (rows db) -> g x = x \/ (g x = t' /\ x = t)).
  { intros x Hx. unfold g. destruct (id x =? id t') eqn:E; [|left; reflexivity].
    right. split; [reflexivity|]. apply Z.eqb_eq in E.
    apply (only_row_with_its_id (rows db)); [assumption..|congruence]. }
  assert (Hgu : forall x, In x (rows db) ->
                          String.eqb (user_id (g x)) who = String.eqb (user_id x) who).
  { intros x Hx. destruct (Hg x Hx) as [->|[-> ->]]; [reflexivity|].
    rewrite Hu. reflexivity. }
  assert (Hgi : forall x, In x (rows db) -> id (g x) = id x).
  { intros x Hx. destruct (Hg x Hx) as [->|[-> ->]]; [reflexivity|exact Hid]. }
  assert (Hsub : forall (f : Task -> bool) (l : list Task) x,
             In x (filter f l) -> In x l)
    by (intros f l x Hx; apply filter_In in Hx; apply Hx).
  rewrite (filter_map_same _ g (rows db) Hgu).
  destruct (String.eqb status "pending") eqn:Ep;
    [|destruct (String.eqb status "completed") eqn:Ec].
  - rewrite filter_map_same.
    + rewrite map_map. apply map_ext_in. intros x Hx.
      apply Hgi. exact (Hsub _ _ _ (Hsub _ _ _ Hx)).
    + intros x Hx. destruct (Hg x (Hsub _ _ x Hx)) as [->|[-> ->]]; [reflexivity|].
      destruct Hc as [->|[Hp _]]; [reflexivity|].
      apply String.eqb_eq in Ep. contradiction.
  - rewrite filter_map_same.
    + rewrite map_map. apply map_ext_in. intros x Hx.
      apply Hgi. exact (Hsub _ _ _ (Hsub _ _ _ Hx)).
    + intros x Hx. destruct (Hg x (Hsub _ _ x Hx)) as [->|[-> ->]]; [reflexivity|].
      destruct Hc as [->|[_ Hp]]; [reflexivity|].
      apply String.eqb_eq in Ec. contradiction.
  - rewrite map_map. apply map_ext_in. intros x Hx.
    apply Hgi. exact (Hsub _ _ _ Hx).
Qed.

Lemma complete_task_succeeded (db db' : Database) (now : Z) (uid : string)
      (k : Z) (r : Response) :
  complete_task db now uid k = (db', r) -> success r = true ->
  fault db = None /\
  exists t : Task,
    get db k = Some t /\ user_id t = uid /\
    db' = merge db (mkTask (id t) (user_id t) (title t) (description t) true
                           (created_at t) now).
Proof.
  unfold complete_task. intros H Hs.
  destruct (fault db) as [e|]; [injection H as <- <-; discriminate Hs|].
  split; [reflexivity|].
  destruct (session_get db k) as [t| |e] eqn:Hg;
    [|injection H as <- <-; discriminate Hs..].
  apply session_get_found_inv in Hg.
  destruct (String.eqb (user_id t) uid) eqn:Hu; simpl in H;
    [|injection H as <- <-; discriminate Hs].
  exists t. apply String.eqb_eq in Hu. injection H as <- _.
  repeat split; assumption.
Qed.

(** In a table reached through the operations, once [complete_task]
    has succeeded the task is in no pending listing of its owner and in
    every completed listing of the owner that succeeds, while the "all"
    listing of every user holds the same ids as before. *)
Theorem completed_task_changes_listing (db db' : Database) (now : Z)
        (uid : string) (k : Z) (r : Response) :
  consistent db ->
  complete_task db now uid k = (db', r) -> success r = true ->
  (success (snd (list_tasks db' uid "completed")) = true ->
   In k (listed_ids (snd (list_tasks db' uid "completed"))))
  /\ ~ In k (listed_ids (snd (list_tasks db' uid "pending")))
  /\ (forall who : string,
        Permutation (listed_ids (snd (list_tasks db' who "all")))
                    (listed_ids (snd (list_tasks db who "all")))).
Proof.
  intros [Hn _] H Hs.
  destruct (complete_task_succeeded _ _ _ _ _ _ H Hs) as [Hf [t [Hg [Hu Hdb]]]].
  destruct (get_some _ _ _ Hg) as [Hid Hin].
  set (done := mkTask (id t) (user_id t) (title t) (description t) true
                      (created_at t) now) in *.
  assert (Hf' : fault db' = None) by (rewrite Hdb; exact Hf).
  assert (Hrow : forall x, In x (rows db') -> id x = k -> x = done).
  { rewrite Hdb. simpl. intros x Hx Hk. apply in_map_iff in Hx.
    destruct Hx as [y [Hy _]]. simpl in Hy.
    destruct (id y =? id t) eqn:E; [congruence|].
    apply Z.eqb_neq in E. congruence. }
  split; [|split].
  - intros Hl. destruct (bind db' uid) as [e|] eqn:Hb;
      [unfold list_tasks in Hl; rewrite Hf', Hb in Hl; discriminate Hl|].
    rewrite (listed_ids_of_list_tasks db' uid _ Hf' Hb). apply in_map_iff.
    exists done. split; [exact Hid|]. apply select_tasks_spec.
    split; [|split; [exact Hu|split; [intros E; discriminate E|reflexivity]]].
    rewrite Hdb. simpl. apply in_map_iff. exists t.
    split; [|exact Hin]. simpl. rewrite Z.eqb_refl. reflexivity.
  - destruct (listed_ids_cases db' uid "pending") as [->|[_ [_ ->]]];
      [intros []|].
    intros Hk. apply in_map_iff in Hk. destruct Hk as [x [Hk Hx]].
    apply select_tasks_spec in Hx. destruct Hx as [Hx [_ [Hp _]]].
    rewrite (Hrow x Hx Hk) in Hp. discriminate (Hp eq_refl).
  - intros who.
    destruct (listed_ids_both db db' who "all") as [[-> ->]|[-> ->]];
      [rewrite Hdb; reflexivity..|constructor|].
    rewrite Hdb.
    apply (merge_listing db t done); try assumption; try reflexivity.
    right. split; intros E; discriminate E.
Qed.

Lemma completed_task_changes_listing_witness :
  let db := mkDatabase SQLite None 0
              [mkTask 1 "alice" "wash" None false 3 3;
               mkTask 2 "alice" "cook" None false 4 4] in
  In 2 (listed_ids (snd (list_tasks (fst (complete_task db 9 "alice" 2))
                                    "alice" "completed"))) /\
  ~ In 2 (listed_ids (snd (list_tasks (fst (complete_task db 9 "alice" 2))
                                      "alice" "pending"))).
Proof.
  intros db.
  assert (Hc : consistent db).
  { split; simpl.
    - constructor; [simpl; intros [H|[]]; discriminate H|].
      constructor; [intros []|constructor].
    - intros H. discriminate H. }
  destruct (completed_task_changes_listing
              db (fst (complete_task db 9 "alice" 2)) 9 "alice" 2
              (snd (complete_task db 9 "alice" 2))
              Hc eq_refl eq_refl) as [H1 [H2 _]].
  split; [exact (H1 eq_refl)|exact H2].
Defined.

(** In a table reached through the operations a successful
    [update_task] moves no task between listings: for every user and
    every filter the listing holds the same ids as before. *)
Theorem update_task_keeps_every_listing (db db' : Database) (now : Z)
        (uid : string) (task_id : Z) (new_title new_descr : option string)
        (r : Response) :
  consistent db ->
  update_task db now uid task_id new_title new_descr = (db', r) ->
  success r = true ->
  forall who status : string,
    Permutation (listed_ids (snd (list_tasks db' who status)))
                (listed_ids (snd (list_tasks db who status))).
Proof.
  intros [Hn _] H Hs who status. unfold update_task in H.
  destruct (fault db) as [e|] eqn:Hf;
    [injection H as <- <-; discriminate Hs|].
  destruct (session_get db task_id) as [task| |e] eqn:Hg;
    [|injection H as <- <-; discriminate Hs..].
  apply session_get_found_inv in Hg.
  destruct (negb (String.eqb (user_id task) uid));
    [injection H as <- <-; discriminate Hs|].
  destruct (bind_all db [new_title; new_descr]);
    [injection H as <- <-; discriminate Hs|].
  destruct (get_some _ _ _ Hg) as [Hid Hin].
  injection H as Hdb _.
  destruct (listed_ids_both db db' who status) as [[-> ->]|[-> ->]];
    [rewrite <- Hdb; reflexivity..|constructor|].
  rewrite <- Hdb.
  apply (merge_listing db task); try assumption;
    destruct new_title, new_descr; simpl; try reflexivity; left; reflexivity.
Qed.

Lemma update_task_keeps_every_listing_witness :
  let db := mkDatabase SQLite None 0
              [mkTask 1 "alice" "wash" None false 3 3;
               mkTask 2 "alice" "cook" None true 4 4] in
  Permutation
    (listed_ids (snd (list_tasks (fst (update_task db 9 "alice" 2 (Some "bake") None))
                                 "alice" "completed")))
    (listed_ids (snd (list_tasks db "alice" "completed"))).
Proof.
  intros db.
  assert (Hc : consistent db).
  { split; simpl.
    - constructor; [simpl; intros [H|[]]; discriminate H|].
      constructor; [intros []|constructor].
    - intros H. discriminate H. }
  exact (update_task_keeps_every_listing
           db (fst (update_task db 9 "alice" 2 (Some "bake") None))
           9 "alice" 2 (Some "bake") None
           (snd (update_task db 9 "alice" 2 (Some "bake") None))
           Hc eq_refl eq_refl "alice" "completed").
Defined.

End TableFacts.
